(** * Jobly data-access layer: statement construction and entity models

    A shallow embedding of [helpers/sql.js], [models/job.js],
    [models/company.js] and [models/user.js], followed by the properties
    established about them.

    JavaScript objects are kept as association lists in the order that
    [Object.keys] reports their own enumerable properties, since that
    order decides the numbering of the placeholders. *)

From Stdlib Require Import String Ascii List ZArith Lia Bool Arith.
From Stdlib Require Import DecimalString.
Import ListNotations.
Open Scope string_scope.

Set Warnings "-register-all".

(* ================================================================== *)
(** ** JavaScript values, objects and the few operators the code uses *)
(* ================================================================== *)

Module Js.

(** Numbers are the integers the application stores (ids, salaries,
    head counts, array lengths).  [VFun name] is a built-in function of
    the engine, known by its name: the models meet one only when a
    property is read through [Object.prototype]. *)
Inductive value : Type :=
| VUndefined
| VNull
| VBool (b : bool)
| VNum (n : Z)
| VStr (s : string)
| VObj (o : list (string * value))
| VFun (name : string).

(** An object: own enumerable properties, in [Object.keys] order. *)
Definition obj : Type := list (string * value).

(** The double-quote character, written by its code point. *)
Definition dq : string := String (ascii_of_nat 34) EmptyString.

(** Line feed, for the statement texts that span several lines. *)
Definition nl : string := String (ascii_of_nat 10) EmptyString.

(** Decimal rendering of an array index or length. *)
Definition dec (n : nat) : string := NilEmpty.string_of_uint (Nat.to_uint n).

(** [Number.prototype.toString] on an integer.  The engine writes an
    integer in plain decimal below [10^21] in absolute value and in
    exponent form from there on; the rendering here is the plain one
    throughout, so it stands for the engine's on the first range only.
    It reaches error messages and nothing else. *)
Definition dec_int (n : Z) : string := NilEmpty.string_of_int (Z.to_int n).

(** [ToString], as applied by a template literal [`${v}`]. *)
Definition to_string (v : value) : string :=
  match v with
  | VUndefined => "undefined"
  | VNull => "null"
  | VBool true => "true"
  | VBool false => "false"
  | VNum n => dec_int n
  | VStr s => s
  | VObj _ => "[object Object]"
  | VFun name => "function " ++ name ++ "() { [native code] }"
  end.

(** [ToBoolean]: what [if (v)], [!v] and [v || w] test. *)
Definition truthy (v : value) : bool :=
  match v with
  | VUndefined | VNull => false
  | VBool b => b
  | VNum n => negb (n =? 0)%Z
  | VStr s => negb (s =? EmptyString)
  | VObj _ | VFun _ => true
  end.

(** [a || b]. *)
Definition or_else (a b : value) : value := if truthy a then a else b.

Definition Object_keys (o : obj) : list string := map fst o.
Definition Object_values (o : obj) : list value := map snd o.

(** [o[k]]: the own property, [undefined] when there is none.  The
    models read rows and payloads under fixed names ([handle],
    [password], [companyHandle], ...), none of which [Object.prototype]
    defines, so the own property is all such a read can find. *)
Fixpoint get (o : obj) (k : string) : value :=
  match o with
  | [] => VUndefined
  | (k', v) :: rest => if k' =? k then v else get rest k
  end.

(** What every plain object inherits: the properties of the engine's
    [Object.prototype].  Eleven are built-in functions; [__proto__]
    reads as [Object.prototype] itself, an object with no enumerable
    property of its own. *)
Definition Object_prototype : obj :=
  [("constructor", VFun "Object");
   ("__defineGetter__", VFun "__defineGetter__");
   ("__defineSetter__", VFun "__defineSetter__");
   ("hasOwnProperty", VFun "hasOwnProperty");
   ("__lookupGetter__", VFun "__lookupGetter__");
   ("__lookupSetter__", VFun "__lookupSetter__");
   ("isPrototypeOf", VFun "isPrototypeOf");
   ("propertyIsEnumerable", VFun "propertyIsEnumerable");
   ("toString", VFun "toString");
   ("valueOf", VFun "valueOf");
   ("toLocaleString", VFun "toLocaleString");
   ("__proto__", VObj [])].

Fixpoint has (o : obj) (k : string) : bool :=
  match o with
  | [] => false
  | (k', _) :: rest => (k' =? k) || has rest k
  end.

(** [o[k] = v]: overwrite in place, or add as the last property. *)
Fixpoint set (o : obj) (k : string) (v : value) : obj :=
  match o with
  | [] => [(k, v)]
  | (k', v') :: rest =>
      if k' =? k then (k', v) :: rest else (k', v') :: set rest k v
  end.

(** [delete o[k]]. *)
Definition delete (o : obj) (k : string) : obj :=
  filter (fun kv => negb (fst kv =? k)) o.

(** [xs.map((x, idx) => f(x, idx))], counting from [idx]. *)
Fixpoint map_from {A B : Type} (f : A -> nat -> B) (idx : nat) (xs : list A)
  : list B :=
  match xs with
  | [] => []
  | x :: rest => f x idx :: map_from f (S idx) rest
  end.

Definition Array_map {A B : Type} (f : A -> nat -> B) (xs : list A) : list B :=
  map_from f 0 xs.

(** [xs.join(sep)] on an array of strings. *)
Fixpoint Array_join (sep : string) (xs : list string) : string :=
  match xs with
  | [] => EmptyString
  | [x] => x
  | x :: rest => x ++ sep ++ Array_join sep rest
  end.

(** [xs.push(x)]. *)
Definition push {A : Type} (xs : list A) (x : A) : list A := (xs ++ [x])%list.

(** [rows[0]]. *)
Definition first_row (rows : list obj) : value :=
  match rows with
  | [] => VUndefined
  | r :: _ => VObj r
  end.

(** Does the value carry an own property [k]? *)
Definition has_field (v : value) (k : string) : bool :=
  match v with
  | VObj o => has o k
  | _ => false
  end.

(** An array held in a property ([company.jobs], [user.jobs]), seen as
    the object it is: its elements under the keys [0], [1], ... in
    decimal. *)
Definition Array_of (xs : list value) : value :=
  VObj (Array_map (fun x idx => (dec idx, x)) xs).

(** The elements of an array value, in index order. *)
Definition elements (v : value) : list value :=
  match v with
  | VObj o => Object_values o
  | _ => []
  end.

End Js.
Import Js.

(* ================================================================== *)
(** ** Errors *)
(* ================================================================== *)

(** Modelled from the spec: the error classes of [expressError.js], which
    is not among the sources.  The models import [BadRequestError],
    [NotFoundError] and [UnauthorizedError] and throw them with a
    message; [DriverError] stands for the rejection of a [db.query]
    promise, the opaque storage fault of the specification, which the
    models never catch. *)
Inductive error : Type :=
| BadRequestError (message : string)
| NotFoundError (message : string)
| UnauthorizedError (message : string)
| DriverError (detail : string).

(** Modelled from the spec: the error taxonomy of its section 7.  An
    empty update payload and an inconsistent range are its BadInput, and
    the code throws [BadRequestError] for both; [NotFoundError] is its
    NotFound.  No class of the models answers to Conflict. *)
Inductive category : Type :=
| BadInput
| NotFound
| Conflict
| Unauthorized
| OpaqueFault.

Definition classify (e : error) : category :=
  match e with
  | BadRequestError _ => BadInput
  | NotFoundError _ => NotFound
  | UnauthorizedError _ => Unauthorized
  | DriverError _ => OpaqueFault
  end.

(* ================================================================== *)
(** ** helpers/sql.js *)
(* ================================================================== *)

Module Sql.

(** A [jsToSql] table: external field name to column name. *)
Definition table : Type := list (string * string).

(** [jsToSql[colName]], with a field name the caller chose: the table's
    own entry when it has one, and otherwise whatever the table, a
    plain object, inherits under that name. *)
Definition lookup (jsToSql : table) (colName : string) : value :=
  match find (fun kv => fst kv =? colName) jsToSql with
  | Some (_, column) => VStr column
  | None => Js.get Object_prototype colName
  end.

(** [jsToSql[colName] || colName], rendered by the template literal. *)
Definition column (jsToSql : table) (colName : string) : string :=
  to_string (or_else (lookup jsToSql colName) (VStr colName)).

(** One element of [cols]: [`"${jsToSql[colName] || colName}"=$${idx + 1}`]. *)
Definition assignment (jsToSql : table) (colName : string) (idx : nat) : string :=
  dq ++ column jsToSql colName ++ dq ++ "=$" ++ dec (idx + 1).

Record update_parts : Type := { setCols : string; values : list value }.

Definition sqlForPartialUpdate (dataToUpdate : obj) (jsToSql : table)
  : error + update_parts :=
  let keys := Object_keys dataToUpdate in
  if (length keys =? 0)%nat then inl (BadRequestError "No data")
  else
    let cols := Array_map (assignment jsToSql) keys in
    inr {| setCols := Array_join ", " cols;
           values := Object_values dataToUpdate |}.

End Sql.

(* ================================================================== *)
(** ** The database handle *)
(* ================================================================== *)

Module Db.

(** What the models hand to [db.query]: the text and the bound values. *)
Record statement : Type := { text : string; params : list value }.

(** The handle exported by [db.js] is not part of the models; it is taken
    as an interface.  [exec] answers a statement in a store with either a
    rejection or the result rows, and the store that follows. *)
Class Database (D : Type) : Type :=
  { exec : statement -> D -> (string + list obj) * D }.

(** The world a model runs in: the store, and the statements sent so
    far, oldest first. *)
Record world (D : Type) : Type := { store : D; issued : list statement }.
Arguments store {D} _.
Arguments issued {D} _.

(** An [async] model: it ends by throwing or returning, and what it did
    to the world before a throw stays done (no transaction encloses the
    round trips). *)
Definition M (D A : Type) : Type := world D -> (error + A) * world D.

Definition ret {D A : Type} (a : A) : M D A := fun w => (inr a, w).

Definition throw {D A : Type} (e : error) : M D A := fun w => (inl e, w).

Definition bind {D A B : Type} (m : M D A) (k : A -> M D B) : M D B :=
  fun w =>
    match m w with
    | (inl e, w') => (inl e, w')
    | (inr a, w') => k a w'
    end.

(** A synchronous call that may throw. *)
Definition lift {D A : Type} (r : error + A) : M D A :=
  match r with
  | inl e => throw e
  | inr a => ret a
  end.

(** [await db.query(text, params)], giving [result.rows]. *)
Definition query {D : Type} `{Database D} (sql : string) (values : list value)
  : M D (list obj) :=
  fun w =>
    let stmt := {| text := sql; params := values |} in
    let (answer, d) := exec stmt (store w) in
    let w' := {| store := d; issued := push (issued w) stmt |} in
    match answer with
    | inl detail => (inl (DriverError detail), w')
    | inr rows => (inr rows, w')
    end.

(** A fresh world around a store. *)
Definition start {D : Type} (d : D) : world D := {| store := d; issued := [] |}.

End Db.
Import Db.

Notation "x <- c ;; k" := (bind c (fun x => k))
  (at level 61, c at next level, right associativity).

(* ================================================================== *)
(** ** models/job.js *)
(* ================================================================== *)

Module Job.

(** The search filters of [findAll], as the route hands them over:
    [minSalary] a number or absent, [hasEquity] a boolean or absent,
    [title] a string or absent.  [None] is [undefined]. *)
Record criteria : Type :=
  { minSalary : option Z; hasEquity : option bool; title : option string }.

(** [findAll()] with no argument: the default [{}]. *)
Definition no_criteria : criteria :=
  {| minSalary := None; hasEquity := None; title := None |}.

Definition findAll_select : string :=
  "SELECT j.id,
                      j.title,
                      j.salary,
                      j.equity,
                      j.company_handle AS " ++ dq ++ "companyHandle" ++ dq ++ ",
                      c.name AS " ++ dq ++ "companyName" ++ dq ++ "
                FROM jobs j 
                LEFT JOIN companies AS c ON c.handle = j.company_handle".

(** [if (minSalary !== undefined) { ... }] *)
Definition push_minSalary (c : criteria) (acc : list string * list value)
  : list string * list value :=
  let (whereExpressions, queryValues) := acc in
  match minSalary c with
  | Some n =>
      let queryValues := push queryValues (VNum n) in
      (push whereExpressions ("salary >= $" ++ dec (length queryValues)), queryValues)
  | None => acc
  end.

(** [if (hasEquity === true) { ... }] *)
Definition push_hasEquity (c : criteria) (acc : list string * list value)
  : list string * list value :=
  let (whereExpressions, queryValues) := acc in
  match hasEquity c with
  | Some true => (push whereExpressions ("equity > 0"), queryValues)
  | _ => acc
  end.

(** [if (title) { ... }]: the empty string is falsy. *)
Definition push_title (c : criteria) (acc : list string * list value)
  : list string * list value :=
  let (whereExpressions, queryValues) := acc in
  match title c with
  | Some t =>
      if truthy (VStr t) then
        let queryValues := push queryValues (VStr ("%" ++ t ++ "%")) in
        (push whereExpressions ("title ILIKE $" ++ dec (length queryValues)), queryValues)
      else acc
  | None => acc
  end.

(** [whereExpressions] and [queryValues] once the three tests have run. *)
Definition filters (c : criteria) : list string * list value :=
  push_title c (push_hasEquity c (push_minSalary c ([], []))).

(** The text sent by [findAll]. *)
Definition findAll_text (whereExpressions : list string) : string :=
  let query := findAll_select in
  let query :=
    if (0 <? length whereExpressions)%nat
    then query ++ " WHERE " ++ Array_join " AND " whereExpressions
    else query in
  query ++ " ORDER BY id".

Definition get_select : string :=
  "SELECT id,
                   title,
                   salary,
                   equity,
                   company_handle AS " ++ dq ++ "companyHandle" ++ dq ++ "
            FROM jobs
            WHERE id = $1".

Definition get_company_select : string :=
  "SELECT handle,
                 name,
                 description,
                 num_employees AS " ++ dq ++ "numEmployees" ++ dq ++ ",
                 logo_url AS " ++ dq ++ "logoUrl" ++ dq ++ "
          FROM companies
          WHERE handle = $1".

Definition update_text (setCols idVarIdx : string) : string :=
  "UPDATE jobs 
                      SET " ++ setCols ++ " 
                      WHERE id = " ++ idVarIdx ++ " 
                      RETURNING id, 
                                title, 
                                salary, 
                                equity, 
                                company_handle AS " ++ dq ++ "companyHandle" ++ dq.

Definition create_insert : string :=
  "INSERT INTO jobs
             (title, salary, equity, company_handle)
        VALUES ($1, $2, $3, $4)
        RETURNING id, title, salary, equity, company_handle AS " ++ dq ++ "companyHandle" ++ dq.

Definition remove_text : string :=
  "DELETE
                FROM jobs
                WHERE id = $1
                RETURNING id".

Section Models.
Context {D : Type} `{Database D}.

Definition findAll (c : criteria) : M D (list obj) :=
  let (whereExpressions, queryValues) := filters c in
  jobsRes <- query (findAll_text whereExpressions) queryValues ;;
  ret jobsRes.

Definition get (id : value) : M D value :=
  jobRes <- query get_select [id] ;;
  (* const job = jobRes.rows[0]; if (!job) throw ... *)
  match jobRes with
  | [] => throw (NotFoundError ("No job: " ++ to_string id))
  | job :: _ =>
      companiesRes <- query get_company_select [Js.get job "companyHandle"] ;;
      let job := delete job "companyHandle" in
      let job := set job "company" (first_row companiesRes) in
      ret (VObj job)
  end.

Definition update (id : value) (data : obj) : M D value :=
  parts <- lift (Sql.sqlForPartialUpdate data []) ;;
  let setCols := Sql.setCols parts in
  let values := Sql.values parts in
  let idVarIdx := "$" ++ dec (length values + 1) in
  let querySql := update_text setCols idVarIdx in
  (* db.query(querySql, [...values, id]) *)
  result <- query querySql (push values id) ;;
  (* const job = result.rows[0]; if (!job) throw ... *)
  match result with
  | [] => throw (NotFoundError ("No job: " ++ to_string id))
  | job :: _ => ret (VObj job)
  end.

Definition create (data : obj) : M D value :=
  result <- query create_insert
              [Js.get data "title"; Js.get data "salary";
               Js.get data "equity"; Js.get data "companyHandle"] ;;
  (* let job = result.rows[0]; return job; *)
  ret (first_row result).

Definition remove (id : value) : M D value :=
  result <- query remove_text [id] ;;
  (* const job = result.rows[0]; if (!job) throw ... *)
  match result with
  | [] => throw (NotFoundError ("No job with id: " ++ to_string id))
  | _ :: _ => ret VUndefined
  end.

End Models.

End Job.

(* ================================================================== *)
(** ** models/company.js *)
(* ================================================================== *)

Module Company.

(** The search filters of [findAll] after the route has coerced the two
    bounds with unary plus: numbers or absent, and [name] a string or
    absent.  [None] is [undefined]. *)
Record criteria : Type :=
  { minEmployees : option Z; maxEmployees : option Z; name : option string }.

Definition no_criteria : criteria :=
  {| minEmployees := None; maxEmployees := None; name := None |}.

(** [a > b] on numbers; a comparison with [undefined] is false. *)
Definition gt (a b : option Z) : bool :=
  match a, b with
  | Some x, Some y => (y <? x)%Z
  | _, _ => false
  end.

Definition create_probe : string :=
  "SELECT handle
           FROM companies
           WHERE handle = $1".

Definition create_insert : string :=
  "INSERT INTO companies
           (handle, name, description, num_employees, logo_url)
           VALUES ($1, $2, $3, $4, $5)
           RETURNING handle, name, description, num_employees AS " ++ dq ++ "numEmployees" ++ dq ++ ", logo_url AS " ++ dq ++ "logoUrl" ++ dq.

Definition findAll_select : string :=
  "SELECT handle,
                        name,
                        description,
                        num_employees AS " ++ dq ++ "numEmployees" ++ dq ++ ",
                        logo_url AS " ++ dq ++ "logoUrl" ++ dq ++ "
                 FROM companies".

Definition push_minEmployees (c : criteria) (acc : list string * list value)
  : list string * list value :=
  let (whereExpressions, queryValues) := acc in
  match minEmployees c with
  | Some n =>
      let queryValues := push queryValues (VNum n) in
      (push whereExpressions ("num_employees >= $" ++ dec (length queryValues)), queryValues)
  | None => acc
  end.

Definition push_maxEmployees (c : criteria) (acc : list string * list value)
  : list string * list value :=
  let (whereExpressions, queryValues) := acc in
  match maxEmployees c with
  | Some n =>
      let queryValues := push queryValues (VNum n) in
      (push whereExpressions ("num_employees <= $" ++ dec (length queryValues)), queryValues)
  | None => acc
  end.

Definition push_name (c : criteria) (acc : list string * list value)
  : list string * list value :=
  let (whereExpressions, queryValues) := acc in
  match name c with
  | Some s =>
      if truthy (VStr s) then
        let queryValues := push queryValues (VStr ("%" ++ s ++ "%")) in
        (push whereExpressions ("name ILIKE $" ++ dec (length queryValues)), queryValues)
      else acc
  | None => acc
  end.

(** [if (minEmployees > maxEmployees) throw ...], then the three pushes;
    the test comes before the first push. *)
Definition filters (c : criteria) : error + (list string * list value) :=
  if gt (minEmployees c) (maxEmployees c) then
    inl (BadRequestError "Min employees cannot be greater than max employees")
  else
    inr (push_name c (push_maxEmployees c (push_minEmployees c ([], [])))).

Definition findAll_text (whereExpressions : list string) : string :=
  let query := findAll_select in
  let query :=
    if (0 <? length whereExpressions)%nat
    then query ++ " WHERE " ++ Array_join " AND " whereExpressions
    else query in
  query ++ " ORDER BY name".

Definition update_text (setCols handleVarIdx : string) : string :=
  "UPDATE companies 
                      SET " ++ setCols ++ " 
                      WHERE handle = " ++ handleVarIdx ++ " 
                      RETURNING handle, 
                                name, 
                                description, 
                                num_employees AS " ++ dq ++ "numEmployees" ++ dq ++ ", 
                                logo_url AS " ++ dq ++ "logoUrl" ++ dq.

(** The [jsToSql] table [update] passes. *)
Definition update_columns : Sql.table :=
  [("numEmployees", "num_employees"); ("logoUrl", "logo_url")].

Definition get_select : string :=
  "SELECT handle,
                  name,
                  description,
                  num_employees AS " ++ dq ++ "numEmployees" ++ dq ++ ",
                  logo_url AS " ++ dq ++ "logoUrl" ++ dq ++ "
           FROM companies
           WHERE handle = $1".

Definition get_jobs_select : string :=
  "SELECT id, title, salary, equity
           FROM jobs
           WHERE company_handle = $1
           ORDER BY id".

Definition remove_text : string :=
  "DELETE
           FROM companies
           WHERE handle = $1
           RETURNING handle".

Section Models.
Context {D : Type} `{Database D}.

Definition create (data : obj) : M D value :=
  let handle := Js.get data "handle" in
  let name := Js.get data "name" in
  let description := Js.get data "description" in
  let numEmployees := Js.get data "numEmployees" in
  let logoUrl := Js.get data "logoUrl" in
  duplicateCheck <- query create_probe [handle] ;;
  (* if (duplicateCheck.rows[0]) throw ... *)
  match duplicateCheck with
  | _ :: _ => throw (BadRequestError ("Duplicate company: " ++ to_string handle))
  | [] =>
      result <- query create_insert
                  [handle; name; description; numEmployees; logoUrl] ;;
      ret (first_row result)
  end.

Definition findAll (c : criteria) : M D (list obj) :=
  built <- lift (filters c) ;;
  let (whereExpressions, queryValues) := built : list string * list value in
  companiesRes <- query (findAll_text whereExpressions) queryValues ;;
  ret companiesRes.

Definition update (handle : value) (data : obj) : M D value :=
  parts <- lift (Sql.sqlForPartialUpdate data update_columns) ;;
  let setCols := Sql.setCols parts in
  let values := Sql.values parts in
  let handleVarIdx := "$" ++ dec (length values + 1) in
  let querySql := update_text setCols handleVarIdx in
  (* db.query(querySql, [...values, handle]) *)
  result <- query querySql (push values handle) ;;
  match result with
  | [] => throw (NotFoundError ("No company: " ++ to_string handle))
  | company :: _ => ret (VObj company)
  end.

Definition get (handle : value) : M D value :=
  companyRes <- query get_select [handle] ;;
  (* const company = companyRes.rows[0]; if (!company) throw ... *)
  match companyRes with
  | [] => throw (NotFoundError ("No company: " ++ to_string handle))
  | company :: _ =>
      jobsRes <- query get_jobs_select [handle] ;;
      (* company.jobs = jobsRes.rows; *)
      ret (VObj (set company "jobs" (Array_of (map VObj jobsRes))))
  end.

Definition remove (handle : value) : M D value :=
  result <- query remove_text [handle] ;;
  match result with
  | [] => throw (NotFoundError ("No company: " ++ to_string handle))
  | _ :: _ => ret VUndefined
  end.

End Models.

End Company.

(* ================================================================== *)
(** ** models/user.js *)
(* ================================================================== *)

Module User.

(** The [bcrypt] package, taken as an interface: both calls may reject. *)
Class Bcrypt : Type :=
  { hash : value -> Z -> error + value;
    compare : value -> value -> error + bool }.

Definition authenticate_select : string :=
  "SELECT username,
                  password,
                  first_name AS " ++ dq ++ "firstName" ++ dq ++ ",
                  last_name AS " ++ dq ++ "lastName" ++ dq ++ ",
                  email,
                  is_admin AS " ++ dq ++ "isAdmin" ++ dq ++ "
           FROM users
           WHERE username = $1".

Definition register_probe : string :=
  "SELECT username
           FROM users
           WHERE username = $1".

Definition register_insert : string :=
  "INSERT INTO users
           (username,
            password,
            first_name,
            last_name,
            email,
            is_admin)
           VALUES ($1, $2, $3, $4, $5, $6)
           RETURNING username, first_name AS " ++ dq ++ "firstName" ++ dq ++ ", last_name AS " ++ dq ++ "lastName" ++ dq ++ ", email, is_admin AS " ++ dq ++ "isAdmin" ++ dq.

Definition update_text (setCols usernameVarIdx : string) : string :=
  "UPDATE users 
                      SET " ++ setCols ++ " 
                      WHERE username = " ++ usernameVarIdx ++ " 
                      RETURNING username,
                                first_name AS " ++ dq ++ "firstName" ++ dq ++ ",
                                last_name AS " ++ dq ++ "lastName" ++ dq ++ ",
                                email,
                                is_admin AS " ++ dq ++ "isAdmin" ++ dq.

(** The [jsToSql] table [update] passes. *)
Definition update_columns : Sql.table :=
  [("firstName", "first_name"); ("lastName", "last_name");
   ("isAdmin", "is_admin")].

Definition applyToJob_job_probe : string :=
  "SELECT id
           FROM jobs
           WHERE id = $1".

Definition applyToJob_user_probe : string :=
  "SELECT username
           FROM users
           WHERE username = $1".

Definition applyToJob_insert : string :=
  "INSERT INTO applications (job_id, username)
           VALUES ($1, $2)".

Definition findAll_select : string :=
  "SELECT username,
                  first_name AS " ++ dq ++ "firstName" ++ dq ++ ",
                  last_name AS " ++ dq ++ "lastName" ++ dq ++ ",
                  email,
                  is_admin AS " ++ dq ++ "isAdmin" ++ dq ++ "
           FROM users
           ORDER BY username".

Definition get_select : string :=
  "SELECT username,
                  first_name AS " ++ dq ++ "firstName" ++ dq ++ ",
                  last_name AS " ++ dq ++ "lastName" ++ dq ++ ",
                  email,
                  is_admin AS " ++ dq ++ "isAdmin" ++ dq ++ "
           FROM users
           WHERE username = $1".

Definition get_applications_select : string :=
  "SELECT job_id
           FROM applications 
           WHERE username = $1".

Definition remove_text : string :=
  "DELETE
           FROM users
           WHERE username = $1
           RETURNING username".

Section Models.
Context {D : Type} `{Database D} `{Bcrypt}.

(** [BCRYPT_WORK_FACTOR] of [config.js]. *)
Variable BCRYPT_WORK_FACTOR : Z.

Definition authenticate (username password : value) : M D value :=
  result <- query authenticate_select [username] ;;
  let denied := throw (UnauthorizedError "Invalid username/password") in
  (* const user = result.rows[0]; if (user) { ... } *)
  match result with
  | user :: _ =>
      isValid <- lift (compare password (Js.get user "password")) ;;
      (* if (isValid === true) { delete user.password; return user; } *)
      if isValid : bool then ret (VObj (delete user "password")) else denied
  | [] => denied
  end.

Definition register (data : obj) : M D value :=
  let username := Js.get data "username" in
  let password := Js.get data "password" in
  let firstName := Js.get data "firstName" in
  let lastName := Js.get data "lastName" in
  let email := Js.get data "email" in
  let isAdmin := Js.get data "isAdmin" in
  duplicateCheck <- query register_probe [username] ;;
  (* if (duplicateCheck.rows[0]) throw ... *)
  match duplicateCheck with
  | _ :: _ => throw (BadRequestError ("Duplicate username: " ++ to_string username))
  | [] =>
      hashedPassword <- lift (hash password BCRYPT_WORK_FACTOR) ;;
      result <- query register_insert
                  [username; hashedPassword; firstName; lastName; email;
                   isAdmin] ;;
      ret (first_row result)
  end.

(** [if (data.password) data.password = await bcrypt.hash(...)].  The
    assignment is to the caller's object; the model hands the updated
    object on and does not follow what the caller sees afterwards. *)
Definition rehash (data : obj) : M D obj :=
  if truthy (Js.get data "password") then
    hashed <- lift (hash (Js.get data "password") BCRYPT_WORK_FACTOR) ;;
    ret (set data "password" hashed)
  else ret data.

Definition update (username : value) (data : obj) : M D value :=
  data <- rehash data ;;
  parts <- lift (Sql.sqlForPartialUpdate data update_columns) ;;
  let setCols := Sql.setCols parts in
  let values := Sql.values parts in
  let usernameVarIdx := "$" ++ dec (length values + 1) in
  let querySql := update_text setCols usernameVarIdx in
  (* db.query(querySql, [...values, username]) *)
  result <- query querySql (push values username) ;;
  match result with
  | [] => throw (NotFoundError ("No user: " ++ to_string username))
  | user :: _ =>
      (* delete user.password; return user; *)
      ret (VObj (delete user "password"))
  end.

Definition applyToJob (username jobId : value) : M D value :=
  preCheck <- query applyToJob_job_probe [jobId] ;;
  match preCheck with
  | [] => throw (NotFoundError ("No job: " ++ to_string jobId))
  | _ :: _ =>
      preCheck2 <- query applyToJob_user_probe [username] ;;
      match preCheck2 with
      | [] => throw (NotFoundError ("No username: " ++ to_string username))
      | _ :: _ =>
          _ <- query applyToJob_insert [jobId; username] ;;
          ret VUndefined
      end
  end.

(** [db.query(text)] with no values: nothing is bound. *)
Definition findAll : M D (list obj) :=
  result <- query findAll_select [] ;;
  ret result.

Definition get (username : value) : M D value :=
  userRes <- query get_select [username] ;;
  (* const user = userRes.rows[0]; if (!user) throw ... *)
  match userRes with
  | [] => throw (NotFoundError ("No user: " ++ to_string username))
  | user :: _ =>
      userApplicationsRes <- query get_applications_select [username] ;;
      (* user.jobs = userApplicationsRes.rows.map(a => a.job_id); *)
      ret (VObj (set user "jobs"
                   (Array_of (map (fun a => Js.get a "job_id")
                                userApplicationsRes))))
  end.

Definition remove (username : value) : M D value :=
  result <- query remove_text [username] ;;
  match result with
  | [] => throw (NotFoundError ("No user: " ++ to_string username))
  | _ :: _ => ret VUndefined
  end.

End Models.

End User.

(* ================================================================== *)
(** ** What a store answers *)
(* ================================================================== *)

Module Returning.

Definition is_space (c : ascii) : bool :=
  match nat_of_ascii c with
  | 9 | 10 | 13 | 32 => true
  | _ => false
  end.

Definition is_comma (c : ascii) : bool := (nat_of_ascii c =? 44)%nat.

Definition is_quote (c : ascii) : bool := (nat_of_ascii c =? 34)%nat.

(** Cut [s] at every character [sep] accepts; [cur] is the piece being
    read, kept in reverse. *)
Fixpoint pieces (sep : ascii -> bool) (cur : list ascii) (s : string)
  : list string :=
  match s with
  | EmptyString => [string_of_list_ascii (rev cur)]
  | String c rest =>
      if sep c then string_of_list_ascii (rev cur) :: pieces sep [] rest
      else pieces sep (c :: cur) rest
  end.

Definition unquote (s : string) : string :=
  string_of_list_ascii
    (filter (fun c => negb (is_quote c)) (list_ascii_of_string s)).

(** The name a select item goes by: its last word, [AS] alias or bare
    column, without the quotes. *)
Definition output_name (item : string) : string :=
  let words :=
    filter (fun w => negb (w =? EmptyString)) (pieces is_space [] item) in
  unquote (last words EmptyString).

(** The names listed after [RETURNING], when the text has the clause. *)
Definition names (sql : string) : option (list string) :=
  match index 0 "RETURNING" sql with
  | Some at_ =>
      let rest := substring (at_ + 9) (String.length sql) sql in
      Some (map output_name (pieces is_comma [] rest))
  | None => None
  end.

End Returning.

(** A store that honours [RETURNING]: the rows of a statement with the
    clause carry no property beyond the names the clause lists. *)
Class HonoursReturning (D : Type) `{Database D} : Prop :=
  returning_only :
    forall (stmt : statement) (d d' : D) (rows : list obj) (listed : list string),
      exec stmt d = (inr rows, d') ->
      Returning.names (text stmt) = Some listed ->
      Forall (fun row => incl (Object_keys row) listed) rows.

(** A scripted store for worked examples: it answers the statements it
    receives with the prepared answers, in order, projecting each row on
    the [RETURNING] list when there is one. *)
Module Scripted.

Definition script : Type := list (string + list obj).

Definition project (listed : list string) (row : obj) : obj :=
  filter (fun kv => existsb (String.eqb (fst kv)) listed) row.

Definition shape (sql : string) (answer : string + list obj)
  : string + list obj :=
  match answer, Returning.names sql with
  | inr rows, Some listed => inr (map (project listed) rows)
  | _, _ => answer
  end.

Definition answer_next (stmt : statement) (s : script)
  : (string + list obj) * script :=
  match s with
  | [] => (inr [], [])
  | answer :: rest => (shape (text stmt) answer, rest)
  end.

#[global] Instance database : Database script := {| exec := answer_next |}.

(** A [bcrypt] stand-in: the digest is the text with a marker in front. *)
Definition digest (v : value) : value := VStr ("$2b$" ++ to_string v).

Definition same (a b : value) : bool :=
  match a, b with
  | VStr x, VStr y => x =? y
  | _, _ => false
  end.

#[global] Instance bcrypt : User.Bcrypt :=
  {| User.hash := fun v _ => inr (digest v);
     User.compare := fun password hashed => inr (same (digest password) hashed) |}.

End Scripted.

(* ================================================================== *)
(** ** Data for the worked examples *)
(* ================================================================== *)

Module Examples.

(** The request body quoted in [helpers/sql.js]. *)
Definition percy : obj :=
  [("firstName", VStr "Percy"); ("lastName", VStr "Konz");
   ("email", VStr "Percy@gmail.com")].

(** A table whose entry for [f] is the empty string. *)
Definition blank_entry : Sql.table := [("f", EmptyString)].

(** [GET /jobs] with no [hasEquity] in the query string: the route
    stores [false]. *)
Definition equity_off : Job.criteria :=
  {| Job.minSalary := None; Job.hasEquity := Some false; Job.title := None |}.

(** [GET /companies?minEmployees=950&maxEmployees=300]. *)
Definition inverted_range : Company.criteria :=
  {| Company.minEmployees := Some 950%Z;
     Company.maxEmployees := Some 300%Z;
     Company.name := Some "smith" |}.

(** A company payload, and a store in which its handle is taken. *)
Definition acme : obj :=
  [("handle", VStr "acme"); ("name", VStr "Acme");
   ("description", VStr "Anvils"); ("numEmployees", VNum 10);
   ("logoUrl", VNull)].

Definition acme_taken : Scripted.script := [inr [[("handle", VStr "acme")]]].

(** A registration, and a store in which its username is taken. *)
Definition bob : obj :=
  [("username", VStr "bob"); ("password", VStr "hunter2");
   ("firstName", VStr "Bob"); ("lastName", VStr "Roe");
   ("email", VStr "bob@example.com"); ("isAdmin", VBool false)].

Definition bob_taken : Scripted.script := [inr [[("username", VStr "bob")]]].

(** The stored row of [bob], as [authenticate] selects it. *)
Definition bob_row : obj :=
  [("username", VStr "bob"); ("password", Scripted.digest (VStr "hunter2"));
   ("firstName", VStr "Bob"); ("lastName", VStr "Roe");
   ("email", VStr "bob@example.com"); ("isAdmin", VBool false)].

(** The job quoted in [models/job.js] and its company. *)
Definition conservator : obj :=
  [("id", VNum 201); ("title", VStr "Conservator, clothing");
   ("salary", VNum 95000); ("equity", VStr "0");
   ("companyHandle", VStr "watson-davis")].

Definition watson_davis : obj :=
  [("handle", VStr "watson-davis"); ("name", VStr "Watson-Davis");
   ("description", VStr "Year join loss."); ("numEmployees", VNum 819);
   ("logoUrl", VStr "/logos/logo3.png")].

(** The update quoted in [Job.update]. *)
Definition new_terms : obj :=
  [("title", VStr "Conservator, clothing"); ("salary", VNum 90000);
   ("equity", VStr "0")].

(** The user and application rows quoted in [User.get]. *)
Definition blossom : obj :=
  [("username", VStr "BlossBloss"); ("firstName", VStr "Blossom");
   ("lastName", VStr "Konz"); ("isAdmin", VBool true)].

Definition blossom_applications : list obj :=
  [[("job_id", VNum 1)]; [("job_id", VNum 25)]].

(** A job row as [Company.get] selects it. *)
Definition conservator_brief : obj :=
  [("id", VNum 201); ("title", VStr "Conservator, clothing");
   ("salary", VNum 95000); ("equity", VStr "0")].

(** A password change for [bob], and one that leaves the password
    empty. *)
Definition new_password : obj :=
  [("email", VStr "bob@example.org"); ("password", VStr "correct horse")].

Definition blank_password : obj :=
  [("email", VStr "bob@example.org"); ("password", VStr EmptyString)].

(** The job payload of the creation route. *)
Definition clerk : obj :=
  [("title", VStr "Clerk"); ("salary", VNum 40000); ("equity", VStr "0");
   ("companyHandle", VStr "acme")].

(** [GET /companies?name=smith&minEmployees=300&maxEmployees=950], the
    query quoted in [Company.findAll]. *)
Definition smith : Company.criteria :=
  {| Company.minEmployees := Some 300%Z;
     Company.maxEmployees := Some 950%Z;
     Company.name := Some "smith" |}.

(** The same search for another name and other bounds. *)
Definition jones : Company.criteria :=
  {| Company.minEmployees := Some 5%Z;
     Company.maxEmployees := Some 5%Z;
     Company.name := Some "jones" |}.

(** A search that names nothing: the empty string is no filter. *)
Definition nameless : Company.criteria :=
  {| Company.minEmployees := None;
     Company.maxEmployees := None;
     Company.name := Some EmptyString |}.

(** Two job searches that differ in their values only. *)
Definition engineers : Job.criteria :=
  {| Job.minSalary := Some 100000%Z;
     Job.hasEquity := Some true;
     Job.title := Some "Engineer, materials" |}.

Definition astronomers : Job.criteria :=
  {| Job.minSalary := Some 140000%Z;
     Job.hasEquity := Some true;
     Job.title := Some "astronomer" |}.

End Examples.
Import Examples.

(* ================================================================== *)
(** ** Properties of the statement builder *)
(* ================================================================== *)

Section ArrayFacts.
Context {A B : Type}.
Variable f : A -> nat -> B.

Lemma map_from_length (xs : list A) :
  forall idx, length (map_from f idx xs) = length xs.
Proof.
  induction xs as [|x rest IH]; intro idx; simpl; [reflexivity|].
  now rewrite IH.
Qed.

Lemma map_from_nth_error (xs : list A) :
  forall idx i x,
    nth_error xs i = Some x ->
    nth_error (map_from f idx xs) i = Some (f x (idx + i)).
Proof.
  induction xs as [|y rest IH]; intros idx i x Hnth.
  - destruct i; discriminate.
  - destruct i as [|i]; simpl in *.
    + injection Hnth as ->. now rewrite Nat.add_0_r.
    + rewrite (IH (S idx) i x Hnth). f_equal. f_equal. lia.
Qed.

End ArrayFacts.

Lemma find_entry (jsToSql : Sql.table) (k c : string) :
  NoDup (map fst jsToSql) ->
  In (k, c) jsToSql ->
  find (fun kv => fst kv =? k) jsToSql = Some (k, c).
Proof.
  induction jsToSql as [|[k' c'] rest IH]; intros Hnd Hin; [contradiction|].
  simpl in *. inversion Hnd as [|? ? Hfresh Hrest]; subst.
  destruct Hin as [Heq|Hin].
  - injection Heq as -> ->. now rewrite String.eqb_refl.
  - destruct (String.eqb_spec k' k) as [->|Hne].
    + exfalso. apply Hfresh. change k with (fst (k, c)). now apply in_map.
    + now apply IH.
Qed.

Lemma find_no_entry (jsToSql : Sql.table) (k : string) :
  ~ In k (map fst jsToSql) ->
  find (fun kv => fst kv =? k) jsToSql = None.
Proof.
  induction jsToSql as [|[k' c'] rest IH]; intro Hout; [reflexivity|].
  simpl in *. destruct (String.eqb_spec k' k) as [->|Hne].
  - exfalso. apply Hout. now left.
  - apply IH. intro Hin. apply Hout. now right.
Qed.

Lemma get_absent (o : obj) (k : string) :
  ~ In k (Object_keys o) -> Js.get o k = VUndefined.
Proof.
  induction o as [|[k' v] rest IH]; simpl; intro Hout; [reflexivity|].
  destruct (String.eqb_spec k' k) as [->|Hne].
  - exfalso. apply Hout. now left.
  - apply IH. intro Hin. apply Hout. now right.
Qed.

Lemma column_of_entry (jsToSql : Sql.table) (k c : string) :
  NoDup (map fst jsToSql) ->
  In (k, c) jsToSql ->
  Sql.column jsToSql k = if c =? EmptyString then k else c.
Proof.
  intros Hnd Hin. unfold Sql.column, Sql.lookup.
  rewrite (find_entry jsToSql k c Hnd Hin).
  unfold or_else. simpl. now destruct (c =? EmptyString).
Qed.

Lemma column_inherited (jsToSql : Sql.table) (k : string) :
  ~ In k (map fst jsToSql) ->
  Sql.column jsToSql k
  = to_string (or_else (Js.get Object_prototype k) (VStr k)).
Proof.
  intro Hout. unfold Sql.column, Sql.lookup.
  now rewrite (find_no_entry jsToSql k Hout).
Qed.

Lemma sqlForPartialUpdate_nonempty (dataToUpdate : obj) (jsToSql : Sql.table) :
  dataToUpdate <> [] ->
  Sql.sqlForPartialUpdate dataToUpdate jsToSql =
    inr {| Sql.setCols :=
             Array_join ", "
               (Array_map (Sql.assignment jsToSql) (Object_keys dataToUpdate));
           Sql.values := Object_values dataToUpdate |}.
Proof.
  destruct dataToUpdate as [|kv rest]; [congruence|reflexivity].
Qed.

(** C1. For a payload with at least one entry, [sqlForPartialUpdate]
    succeeds; [setCols] is the [", "]-join of one assignment per entry;
    the assignment of the entry at 0-based index [i] is the quoted
    mapped column followed by [=$] and the decimal of [i + 1]; [values]
    holds the entries' values in the same order; and the text is the
    same for every payload with the same keys, whatever the values.
    The mapped column is what [jsToSql[colName] || colName] gives: for
    a key of the table, the table's value, or the field name when that
    value is empty; for any other field, the field name, except under
    the names every object inherits, where it is the rendering of the
    inherited function or object. *)
Theorem sqlForPartialUpdate_assignments :
  forall (dataToUpdate : obj) (jsToSql : Sql.table),
    dataToUpdate <> [] ->
    exists cols : list string,
      Sql.sqlForPartialUpdate dataToUpdate jsToSql =
        inr {| Sql.setCols := Array_join ", " cols;
               Sql.values := map snd dataToUpdate |}
      /\ length cols = length dataToUpdate
      /\ (forall (i : nat) (k : string) (v : value),
             nth_error dataToUpdate i = Some (k, v) ->
             nth_error cols i =
               Some (dq ++ Sql.column jsToSql k ++ dq ++ "=$" ++ dec (i + 1))
             /\ nth_error (map snd dataToUpdate) i = Some v)
      /\ (forall k : string,
             (forall c : string,
                 NoDup (map fst jsToSql) ->
                 In (k, c) jsToSql ->
                 Sql.column jsToSql k = if c =? EmptyString then k else c)
             /\ (~ In k (map fst jsToSql) ->
                 ~ In k (Object_keys Object_prototype) ->
                 Sql.column jsToSql k = k)
             /\ (forall name : string,
                    ~ In k (map fst jsToSql) ->
                    In (k, VFun name) Object_prototype ->
                    Sql.column jsToSql k
                    = "function " ++ name ++ "() { [native code] }")
             /\ (~ In k (map fst jsToSql) ->
                 k = "__proto__" ->
                 Sql.column jsToSql k = "[object Object]"))
      /\ (forall other : obj,
             Object_keys other = Object_keys dataToUpdate ->
             exists vs : list value,
               Sql.sqlForPartialUpdate other jsToSql =
                 inr {| Sql.setCols := Array_join ", " cols;
                        Sql.values := vs |}).
Proof.
  intros dataToUpdate jsToSql Hne.
  exists (Array_map (Sql.assignment jsToSql) (Object_keys dataToUpdate)).
  split; [now apply sqlForPartialUpdate_nonempty|].
  split.
  { unfold Array_map, Object_keys.
    now rewrite map_from_length, length_map. }
  split; [|split].
  - intros i k v Hnth. split.
    + unfold Array_map, Object_keys.
      assert (Hk : nth_error (map fst dataToUpdate) i = Some k).
      { rewrite nth_error_map, Hnth. reflexivity. }
      rewrite (map_from_nth_error _ _ 0 i k Hk). reflexivity.
    + rewrite nth_error_map, Hnth. reflexivity.
  - intro k. split; [intros c Hnd Hin; now apply column_of_entry|].
    split; [|split].
    + intros Hout Hplain. rewrite (column_inherited _ _ Hout).
      now rewrite (get_absent _ _ Hplain).
    + intros name Hout Hfun. rewrite (column_inherited _ _ Hout).
      simpl in Hfun.
      repeat (destruct Hfun as [Hfun|Hfun];
              [injection Hfun as <- <-; reflexivity|]).
      destruct Hfun as [Hfun|[]]. discriminate Hfun.
    + intros Hout ->. now rewrite (column_inherited _ _ Hout).
  - intros other Hkeys. exists (Object_values other).
    rewrite sqlForPartialUpdate_nonempty.
    + now rewrite Hkeys.
    + intros ->. destruct dataToUpdate; [congruence|discriminate].
Qed.

Lemma sqlForPartialUpdate_assignments_witness :
  percy <> []
  /\ exists cols : list string,
      Sql.sqlForPartialUpdate percy User.update_columns =
        inr {| Sql.setCols := Array_join ", " cols;
               Sql.values := map snd percy |}
      /\ length cols = length percy
      /\ (forall (i : nat) (k : string) (v : value),
             nth_error percy i = Some (k, v) ->
             nth_error cols i =
               Some (dq ++ Sql.column User.update_columns k ++ dq ++ "=$"
                     ++ dec (i + 1))
             /\ nth_error (map snd percy) i = Some v)
      /\ (forall k : string,
             (forall c : string,
                 NoDup (map fst User.update_columns) ->
                 In (k, c) User.update_columns ->
                 Sql.column User.update_columns k
                 = if c =? EmptyString then k else c)
             /\ (~ In k (map fst User.update_columns) ->
                 ~ In k (Object_keys Object_prototype) ->
                 Sql.column User.update_columns k = k)
             /\ (forall name : string,
                    ~ In k (map fst User.update_columns) ->
                    In (k, VFun name) Object_prototype ->
                    Sql.column User.update_columns k
                    = "function " ++ name ++ "() { [native code] }")
             /\ (~ In k (map fst User.update_columns) ->
                 k = "__proto__" ->
                 Sql.column User.update_columns k = "[object Object]"))
      /\ (forall other : obj,
             Object_keys other = Object_keys percy ->
             exists vs : list value,
               Sql.sqlForPartialUpdate other User.update_columns =
                 inr {| Sql.setCols := Array_join ", " cols;
                        Sql.values := vs |}).
Proof.
  split.
  - discriminate.
  - apply (sqlForPartialUpdate_assignments percy User.update_columns).
    discriminate.
Defined.

(** The comment of [helpers/sql.js] as a worked example. *)
Example sqlForPartialUpdate_percy :
  Sql.sqlForPartialUpdate percy User.update_columns =
    inr {| Sql.setCols :=
             dq ++ "first_name" ++ dq ++ "=$1, "
             ++ dq ++ "last_name" ++ dq ++ "=$2, "
             ++ dq ++ "email" ++ dq ++ "=$3";
           Sql.values :=
             [VStr "Percy"; VStr "Konz"; VStr "Percy@gmail.com"] |}.
Proof. reflexivity. Qed.

(** The two cases of [helpers/sql.test.js]. *)
Example sqlForPartialUpdate_one_item :
  Sql.sqlForPartialUpdate [("f1", VStr "v1")] [("f1", "f1"); ("fF2", "f2")] =
    inr {| Sql.setCols := dq ++ "f1" ++ dq ++ "=$1";
           Sql.values := [VStr "v1"] |}.
Proof. reflexivity. Qed.

Example sqlForPartialUpdate_two_items :
  Sql.sqlForPartialUpdate [("f1", VStr "v1"); ("jsF2", VStr "v2")]
    [("jsF2", "f2")] =
    inr {| Sql.setCols :=
             dq ++ "f1" ++ dq ++ "=$1, " ++ dq ++ "f2" ++ dq ++ "=$2";
           Sql.values := [VStr "v1"; VStr "v2"] |}.
Proof. reflexivity. Qed.

(** C3. With no entry in [dataToUpdate], [sqlForPartialUpdate] throws
    [BadRequestError] for every table and builds no text; the three
    [update] models then throw the same error having sent no statement
    and left the world as it was. *)
Theorem empty_update_rejected :
  forall jsToSql : Sql.table,
    Sql.sqlForPartialUpdate [] jsToSql = inl (BadRequestError "No data")
    /\ classify (BadRequestError "No data") = BadInput
    /\ forall (D : Type) (db : Database D) (key : value) (w : world D),
        Job.update key [] w = (inl (BadRequestError "No data"), w)
        /\ Company.update key [] w = (inl (BadRequestError "No data"), w)
        /\ forall (crypt : User.Bcrypt) (factor : Z),
            User.update factor key [] w = (inl (BadRequestError "No data"), w).
Proof.
  intro jsToSql. repeat split.
Qed.

(** C4, as observed on the code.  In a table with distinct keys, the
    column emitted for a field that is a key of the table is the table's
    value when that value is a non-empty string and the field name when
    the value is the empty string; for a field that is not a key, and
    not one of the names every object inherits from [Object.prototype],
    it is the field name.  Nothing is said here of a field under an
    inherited name that the table does not list. *)
Theorem column_mapping :
  forall (jsToSql : Sql.table) (colName : string),
    NoDup (map fst jsToSql) ->
    (forall c : string,
        In (colName, c) jsToSql ->
        Sql.column jsToSql colName = if c =? EmptyString then colName else c)
    /\ (~ In colName (map fst jsToSql) ->
        ~ In colName (Object_keys Object_prototype) ->
        Sql.column jsToSql colName = colName).
Proof.
  intros jsToSql colName Hnd. split.
  - intros c Hin. now apply column_of_entry.
  - intros Hout Hplain. rewrite (column_inherited _ _ Hout).
    now rewrite (get_absent _ _ Hplain).
Qed.

Lemma column_mapping_witness :
  NoDup (map fst Company.update_columns)
  /\ ~ In "name" (Object_keys Object_prototype)
  /\ Sql.column Company.update_columns "numEmployees" = "num_employees"
  /\ Sql.column Company.update_columns "name" = "name".
Proof.
  assert (Hnd : NoDup (map fst Company.update_columns)).
  { simpl. repeat constructor; simpl; intuition discriminate. }
  assert (Hplain : ~ In "name" (Object_keys Object_prototype)).
  { simpl. intuition discriminate. }
  split; [exact Hnd|]. split; [exact Hplain|].
  destruct (column_mapping Company.update_columns "numEmployees" Hnd)
    as [Hkey _].
  destruct (column_mapping Company.update_columns "name" Hnd) as [_ Hout].
  split.
  - apply (Hkey "num_employees"). simpl. now left.
  - apply Hout; [simpl; intuition discriminate|exact Hplain].
Defined.

(** A field named [constructor], with the empty table [Job.update]
    passes: the column is the rendering of the inherited function. *)
Example sqlForPartialUpdate_inherited_name :
  Sql.sqlForPartialUpdate [("title", VStr "x"); ("constructor", VStr "y")] []
  = inr {| Sql.setCols :=
             dq ++ "title" ++ dq ++ "=$1, "
             ++ dq ++ "function Object() { [native code] }" ++ dq ++ "=$2";
           Sql.values := [VStr "x"; VStr "y"] |}.
Proof. reflexivity. Qed.

(** C4 as worded does not hold: the table of [blank_entry] has [f] as a
    key, yet the column emitted for [f] is not the table's value. *)
Lemma column_blank_entry :
  ~ (forall (jsToSql : Sql.table) (colName c : string),
        NoDup (map fst jsToSql) ->
        In (colName, c) jsToSql ->
        Sql.column jsToSql colName = c).
Proof.
  intro Hclaim.
  assert (Hnd : NoDup (map fst blank_entry)).
  { simpl. repeat constructor. simpl. tauto. }
  specialize (Hclaim blank_entry "f" EmptyString Hnd (or_introl eq_refl)).
  discriminate Hclaim.
Qed.

(* ================================================================== *)
(** ** Properties of the list filters *)
(* ================================================================== *)

(** C5. When both employee bounds are given and the minimum exceeds the
    maximum, the filter builder throws [BadRequestError] with no
    predicate built, and [Company.findAll] throws it with the world
    untouched: no statement has been sent. *)
Theorem findAll_range_rejected :
  forall (D : Type) (db : Database D) (c : Company.criteria) (lo hi : Z)
         (w : world D),
    Company.minEmployees c = Some lo ->
    Company.maxEmployees c = Some hi ->
    (hi < lo)%Z ->
    exists e : error,
      e = BadRequestError "Min employees cannot be greater than max employees"
      /\ classify e = BadInput
      /\ Company.filters c = inl e
      /\ Company.findAll c w = (inl e, w)
      /\ issued (snd (Company.findAll c w)) = issued w.
Proof.
  intros D db c lo hi w Hlo Hhi Hlt.
  exists (BadRequestError "Min employees cannot be greater than max employees").
  split; [reflexivity|].
  assert (Hgt : Company.gt (Company.minEmployees c) (Company.maxEmployees c)
                = true).
  { rewrite Hlo, Hhi. simpl. now apply Z.ltb_lt. }
  assert (Hf : Company.filters c =
               inl (BadRequestError
                      "Min employees cannot be greater than max employees")).
  { unfold Company.filters. now rewrite Hgt. }
  assert (Hrun : Company.findAll c w =
                 (inl (BadRequestError
                         "Min employees cannot be greater than max employees"),
                  w)).
  { unfold Company.findAll. rewrite Hf. reflexivity. }
  repeat split; try assumption. now rewrite Hrun.
Qed.

Lemma findAll_range_rejected_witness :
  Company.minEmployees inverted_range = Some 950%Z
  /\ Company.maxEmployees inverted_range = Some 300%Z
  /\ (300 < 950)%Z
  /\ exists e : error,
      e = BadRequestError "Min employees cannot be greater than max employees"
      /\ classify e = BadInput
      /\ Company.filters inverted_range = inl e
      /\ Company.findAll inverted_range (start ([] : Scripted.script))
         = (inl e, start [])
      /\ issued (snd (Company.findAll inverted_range
                        (start ([] : Scripted.script))))
         = issued (start ([] : Scripted.script)).
Proof.
  split; [reflexivity|]. split; [reflexivity|]. split; [lia|].
  apply (findAll_range_rejected Scripted.script Scripted.database
           inverted_range 950%Z 300%Z (start [])); [reflexivity|reflexivity|lia].
Defined.

(** C6, as observed on the code.  [minSalary], when not [undefined],
    adds one predicate and one parameter; [hasEquity] adds one predicate
    and no parameter when it is [true], and nothing otherwise; [title]
    adds one predicate and one parameter when it is a non-empty string,
    and nothing otherwise.  Predicates and parameters come in that
    order, each placeholder numbering its own parameter. *)
Theorem findAll_filters_by_key :
  forall c : Job.criteria,
    let bySalary : list string * list value :=
      match Job.minSalary c with
      | Some n => (["salary >= $1"], [VNum n])
      | None => ([], [])
      end in
    let byEquity : list string :=
      match Job.hasEquity c with
      | Some true => ["equity > 0"]
      | _ => []
      end in
    let byTitle : list string * list value :=
      match Job.title c with
      | Some t =>
          if t =? EmptyString then ([], [])
          else (["title ILIKE $" ++ dec (length (snd bySalary) + 1)],
                [VStr ("%" ++ t ++ "%")])
      | None => ([], [])
      end in
    Job.filters c =
      ((fst bySalary ++ byEquity ++ fst byTitle)%list,
       (snd bySalary ++ snd byTitle)%list)
    /\ length (fst bySalary) = length (snd bySalary)
    /\ length (fst byTitle) = length (snd byTitle)
    /\ length (fst bySalary) <= 1
    /\ length byEquity <= 1
    /\ length (fst byTitle) <= 1.
Proof.
  intros [[n|] [[|]|] [t|]]; simpl;
    try (destruct (String.eqb_spec t EmptyString) as [->|Hne]);
    unfold Job.filters, Job.push_minSalary, Job.push_hasEquity,
      Job.push_title; simpl;
    try (destruct (String.eqb_spec t EmptyString) as [->|Hne']);
    simpl; try congruence; repeat split; auto.
Qed.

(** The filters quoted in the comments of [Job.findAll]. *)
Example findAll_filters_engineer :
  Job.filters {| Job.minSalary := Some 100000%Z;
                 Job.hasEquity := Some true;
                 Job.title := Some "Engineer, materials" |}
  = (["salary >= $1"; "equity > 0"; "title ILIKE $2"],
     [VNum 100000; VStr "%Engineer, materials%"]).
Proof. reflexivity. Qed.

(** C6 as worded does not hold: in [equity_off] the key [hasEquity] is
    present, and no predicate is added. *)
Lemma hasEquity_false_adds_nothing :
  Job.hasEquity equity_off <> None
  /\ Job.filters equity_off = ([], [])
  /\ ~ (forall c : Job.criteria,
          Job.hasEquity c <> None -> 1 <= length (fst (Job.filters c))).
Proof.
  split; [discriminate|]. split; [reflexivity|].
  intro Hclaim.
  assert (Hone : 1 <= length (fst (Job.filters equity_off))).
  { apply Hclaim. discriminate. }
  simpl in Hone. lia.
Qed.

(* ================================================================== *)
(** ** Running a model *)
(* ================================================================== *)

Section Running.
Context {D : Type} `{Database D}.

Lemma bind_returns {A B : Type} (m : M D A) (k : A -> M D B)
      (w w' : world D) (b : B) :
  bind m k w = (inr b, w') ->
  exists (a : A) (w1 : world D), m w = (inr a, w1) /\ k a w1 = (inr b, w').
Proof.
  unfold bind. destruct (m w) as [[e|a] w1]; intro Hrun; [discriminate|].
  now exists a, w1.
Qed.

Lemma query_sends (sql : string) (vs : list value) (w : world D) :
  let stmt := {| text := sql; params := vs |} in
  query sql vs w =
    (match fst (exec stmt (store w)) with
     | inl detail => inl (DriverError detail)
     | inr rows => inr rows
     end,
     {| store := snd (exec stmt (store w));
        issued := push (issued w) stmt |}).
Proof.
  unfold query. simpl.
  destruct (exec {| text := sql; params := vs |} (store w)) as [[detail|rows] d];
    reflexivity.
Qed.

Lemma query_answers (sql : string) (vs : list value) (w : world D)
      (rows : list obj) (d : D) :
  exec {| text := sql; params := vs |} (store w) = (inr rows, d) ->
  query sql vs w =
    (inr rows,
     {| store := d; issued := push (issued w) {| text := sql; params := vs |} |}).
Proof.
  intro Hexec. rewrite query_sends. simpl. now rewrite Hexec.
Qed.

Lemma query_returns (sql : string) (vs : list value) (w w' : world D)
      (rows : list obj) :
  query sql vs w = (inr rows, w') ->
  exec {| text := sql; params := vs |} (store w) = (inr rows, store w').
Proof.
  rewrite query_sends. simpl.
  destruct (exec {| text := sql; params := vs |} (store w)) as [[detail|rs] d];
    simpl; intro Hrun; inversion Hrun; reflexivity.
Qed.

End Running.

(* ================================================================== *)
(** ** Properties of the entity models *)
(* ================================================================== *)

(** C2, as observed on the code.  When the probe on the handle (for a
    company) or on the username (for a user) answers with at least one
    row, [create] and [register] throw [BadRequestError], the class also
    thrown for bad input, and the probe is the only statement sent: the
    store is the one the probe left and no [INSERT] was issued. *)
Theorem create_duplicate_rejected :
  forall (D : Type) (db : Database D) (crypt : User.Bcrypt) (factor : Z)
         (data : obj) (w : world D),
    (forall (row : obj) (rows : list obj) (d : D),
        let probe := {| text := Company.create_probe;
                        params := [Js.get data "handle"] |} in
        exec probe (store w) = (inr (row :: rows), d) ->
        Company.create data w =
          (inl (BadRequestError
                  ("Duplicate company: " ++ to_string (Js.get data "handle"))),
           {| store := d; issued := (issued w ++ [probe])%list |}))
    /\ (forall (row : obj) (rows : list obj) (d : D),
        let probe := {| text := User.register_probe;
                        params := [Js.get data "username"] |} in
        exec probe (store w) = (inr (row :: rows), d) ->
        User.register factor data w =
          (inl (BadRequestError
                  ("Duplicate username: "
                   ++ to_string (Js.get data "username"))),
           {| store := d; issued := (issued w ++ [probe])%list |})).
Proof.
  intros D db crypt factor data w. split; intros row rows d probe Hexec.
  - unfold Company.create, bind.
    rewrite (query_answers _ _ w (row :: rows) d Hexec). reflexivity.
  - unfold User.register, bind.
    rewrite (query_answers _ _ w (row :: rows) d Hexec). reflexivity.
Qed.

Lemma create_duplicate_rejected_witness :
  exec {| text := Company.create_probe; params := [Js.get acme "handle"] |}
       (store (start acme_taken))
  = (inr [[("handle", VStr "acme")]], [])
  /\ Company.create acme (start acme_taken) =
       (inl (BadRequestError "Duplicate company: acme"),
        {| store := [];
           issued := [{| text := Company.create_probe;
                         params := [VStr "acme"] |}] |}).
Proof.
  split; [reflexivity|].
  apply (proj1 (create_duplicate_rejected Scripted.script Scripted.database
                  Scripted.bcrypt 12%Z acme (start acme_taken))
           [("handle", VStr "acme")] [] []).
  reflexivity.
Defined.

(** C2 as worded does not hold: the handle of [acme] resolves to a row
    at probe time, and [create] fails with an error that is not in the
    Conflict category; likewise [register] for [bob]. *)
Lemma create_duplicate_not_conflict :
  (exists e : error,
      fst (Company.create acme (start acme_taken)) = inl e
      /\ e = BadRequestError "Duplicate company: acme"
      /\ classify e <> Conflict)
  /\ (exists e : error,
      fst (User.register 12%Z bob (start bob_taken)) = inl e
      /\ e = BadRequestError "Duplicate username: bob"
      /\ classify e <> Conflict).
Proof.
  split; eexists; (split; [reflexivity|]); (split; [reflexivity|]);
    discriminate.
Qed.

Lemma nth_error_push {A : Type} (xs : list A) (x : A) :
  nth_error (push xs x) (length xs) = Some x.
Proof.
  unfold push. rewrite nth_error_app2 by lia.
  now rewrite Nat.sub_diag.
Qed.

Lemma length_push {A : Type} (xs : list A) (x : A) :
  length (push xs x) = length xs + 1.
Proof. unfold push. now rewrite length_app. Qed.

Lemma Job_update_text_selector (setCols : string) (n : nat) :
  exists before after : string,
    Job.update_text setCols ("$" ++ dec n) =
      before ++ setCols ++ after
    /\ exists gap rest : string,
        after = gap ++ "WHERE id = $" ++ dec n ++ rest.
Proof.
  exists ("UPDATE jobs 
                      SET ").
  eexists. split; [reflexivity|].
  exists (" 
                      ").
  eexists. reflexivity.
Qed.

Lemma Company_update_text_selector (setCols : string) (n : nat) :
  exists before after : string,
    Company.update_text setCols ("$" ++ dec n) =
      before ++ setCols ++ after
    /\ exists gap rest : string,
        after = gap ++ "WHERE handle = $" ++ dec n ++ rest.
Proof.
  exists ("UPDATE companies 
                      SET ").
  eexists. split; [reflexivity|].
  exists (" 
                      ").
  eexists. reflexivity.
Qed.

Lemma User_update_text_selector (setCols : string) (n : nat) :
  exists before after : string,
    User.update_text setCols ("$" ++ dec n) =
      before ++ setCols ++ after
    /\ exists gap rest : string,
        after = gap ++ "WHERE username = $" ++ dec n ++ rest.
Proof.
  exists ("UPDATE users 
                      SET ").
  eexists. split; [reflexivity|].
  exists (" 
                      ").
  eexists. reflexivity.
Qed.

Lemma truthy_get_has (o : obj) (k : string) :
  truthy (Js.get o k) = true -> has o k = true.
Proof.
  induction o as [|[k0 v] rest IH]; simpl; [discriminate|].
  destruct (k0 =? k); simpl; [reflexivity|exact IH].
Qed.

Lemma keys_set_present (o : obj) (k : string) (v : value) :
  has o k = true -> Object_keys (set o k v) = Object_keys o.
Proof.
  induction o as [|[k0 v0] rest IH]; simpl; [discriminate|].
  destruct (k0 =? k); simpl; [reflexivity|].
  intro Hrest. f_equal. now apply IH.
Qed.

Section Updates.
Context {D : Type} `{Database D}.

(** Both facts below follow the same steps once the builder has
    succeeded: send the statement, look at the first row. *)
Ltac after_builder Hne :=
  unfold Job.update, Company.update, bind;
  rewrite (sqlForPartialUpdate_nonempty _ _ Hne); simpl;
  rewrite query_sends; simpl;
  match goal with
  | |- context [fst (exec ?stmt ?d)] =>
      destruct (fst (exec stmt d)) as [detail|[|row rows]]
  end; simpl.

Ltac not_found_cases :=
  split;
  [ intros [e [He Hc]]; try discriminate;
    try (injection He as <-; discriminate); reflexivity
  | intro Hrows; try discriminate; eexists; split; reflexivity ].

Lemma Job_update_issued (id : value) (data : obj) (w : world D) :
  data <> [] ->
  issued (snd (Job.update id data w)) =
    (issued w
     ++ [{| text :=
              Job.update_text
                (Array_join ", "
                   (Array_map (Sql.assignment []) (Object_keys data)))
                ("$" ++ dec (length (Object_values data) + 1));
            params := push (Object_values data) id |}])%list.
Proof. intro Hne. after_builder Hne; reflexivity. Qed.

Lemma Job_update_not_found (id : value) (data : obj) (w : world D) :
  data <> [] ->
  (exists e : error,
      fst (Job.update id data w) = inl e /\ classify e = NotFound)
  <-> fst (exec
             {| text :=
                  Job.update_text
                    (Array_join ", "
                       (Array_map (Sql.assignment []) (Object_keys data)))
                    ("$" ++ dec (length (Object_values data) + 1));
                params := push (Object_values data) id |} (store w))
      = inr [].
Proof. intro Hne. after_builder Hne; not_found_cases. Qed.

Lemma Company_update_issued (handle : value) (data : obj) (w : world D) :
  data <> [] ->
  issued (snd (Company.update handle data w)) =
    (issued w
     ++ [{| text :=
              Company.update_text
                (Array_join ", "
                   (Array_map (Sql.assignment Company.update_columns)
                      (Object_keys data)))
                ("$" ++ dec (length (Object_values data) + 1));
            params := push (Object_values data) handle |}])%list.
Proof. intro Hne. after_builder Hne; reflexivity. Qed.

Lemma Company_update_not_found (handle : value) (data : obj) (w : world D) :
  data <> [] ->
  (exists e : error,
      fst (Company.update handle data w) = inl e /\ classify e = NotFound)
  <-> fst (exec
             {| text :=
                  Company.update_text
                    (Array_join ", "
                       (Array_map (Sql.assignment Company.update_columns)
                          (Object_keys data)))
                    ("$" ++ dec (length (Object_values data) + 1));
                params := push (Object_values data) handle |} (store w))
      = inr [].
Proof. intro Hne. after_builder Hne; not_found_cases. Qed.

Context {crypt : User.Bcrypt}.
Variable factor : Z.

Lemma rehash_keeps_keys (data data' : obj) (w w' : world D) :
  User.rehash factor data w = (inr data', w') ->
  w' = w /\ Object_keys data' = Object_keys data.
Proof.
  unfold User.rehash, bind, lift.
  destruct (truthy (Js.get data "password")) eqn:Hpw.
  - destruct (User.hash (Js.get data "password") factor) as [e|hashed];
      simpl; intro Hrun; [discriminate|].
    injection Hrun as <- <-. split; [reflexivity|].
    apply keys_set_present. now apply truthy_get_has.
  - intro Hrun. injection Hrun as <- <-. now split.
Qed.

Lemma rehash_nonempty (data data' : obj) (w w' : world D) :
  User.rehash factor data w = (inr data', w') -> data <> [] -> data' <> [].
Proof.
  intros Hrun Hne ->. apply rehash_keeps_keys in Hrun as [_ Hkeys].
  destruct data; [congruence|discriminate].
Qed.

Ltac after_rehash Hrun Hne :=
  pose proof (rehash_nonempty _ _ _ _ Hrun Hne) as Hne';
  destruct (rehash_keeps_keys _ _ _ _ Hrun) as [-> _];
  unfold User.update, bind; rewrite Hrun;
  rewrite (sqlForPartialUpdate_nonempty _ _ Hne'); simpl;
  rewrite query_sends; simpl;
  match goal with
  | |- context [fst (exec ?stmt ?d)] =>
      destruct (fst (exec stmt d)) as [detail|[|row rows]]
  end; simpl.

Lemma User_update_issued (username : value) (data data' : obj)
      (w w' : world D) :
  User.rehash factor data w = (inr data', w') ->
  data <> [] ->
  issued (snd (User.update factor username data w)) =
    (issued w
     ++ [{| text :=
              User.update_text
                (Array_join ", "
                   (Array_map (Sql.assignment User.update_columns)
                      (Object_keys data')))
                ("$" ++ dec (length (Object_values data') + 1));
            params := push (Object_values data') username |}])%list.
Proof. intros Hrun Hne. after_rehash Hrun Hne; reflexivity. Qed.

Lemma User_update_not_found (username : value) (data data' : obj)
      (w w' : world D) :
  User.rehash factor data w = (inr data', w') ->
  data <> [] ->
  (exists e : error,
      fst (User.update factor username data w) = inl e
      /\ classify e = NotFound)
  <-> fst (exec
             {| text :=
                  User.update_text
                    (Array_join ", "
                       (Array_map (Sql.assignment User.update_columns)
                          (Object_keys data')))
                    ("$" ++ dec (length (Object_values data') + 1));
                params := push (Object_values data') username |} (store w))
      = inr [].
Proof. intros Hrun Hne. after_rehash Hrun Hne; not_found_cases. Qed.

End Updates.

(** C7. For a payload with at least one entry, [Job.update],
    [Company.update] and, once the password has been hashed,
    [User.update] send exactly one statement.  Its text holds the
    built assignments and, after them, the predicate on the identity
    column with placeholder [$(n + 1)], [n] being the number of values;
    its parameters are the values followed by the identity value, which
    sits at 0-based position [n], the last; and the model throws an
    error of the NotFound category exactly when the store answers that
    statement with no row. *)
Theorem update_selector_after_assignments :
  forall (D : Type) (db : Database D) (key : value) (data : obj)
         (w : world D),
    data <> [] ->
    let n := length (Object_values data) in
    (exists (setCols : string) (stmt : statement),
        Sql.sqlForPartialUpdate data [] =
          inr {| Sql.setCols := setCols; Sql.values := Object_values data |}
        /\ issued (snd (Job.update key data w)) = (issued w ++ [stmt])%list
        /\ params stmt = (Object_values data ++ [key])%list
        /\ nth_error (params stmt) n = Some key
        /\ length (params stmt) = n + 1
        /\ (exists before gap rest : string,
               text stmt =
                 before ++ setCols ++ gap ++ "WHERE id = $" ++ dec (n + 1)
                 ++ rest)
        /\ ((exists e : error,
                fst (Job.update key data w) = inl e /\ classify e = NotFound)
            <-> fst (exec stmt (store w)) = inr []))
    /\ (exists (setCols : string) (stmt : statement),
        Sql.sqlForPartialUpdate data Company.update_columns =
          inr {| Sql.setCols := setCols; Sql.values := Object_values data |}
        /\ issued (snd (Company.update key data w))
           = (issued w ++ [stmt])%list
        /\ params stmt = (Object_values data ++ [key])%list
        /\ nth_error (params stmt) n = Some key
        /\ length (params stmt) = n + 1
        /\ (exists before gap rest : string,
               text stmt =
                 before ++ setCols ++ gap ++ "WHERE handle = $"
                 ++ dec (n + 1) ++ rest)
        /\ ((exists e : error,
                fst (Company.update key data w) = inl e
                /\ classify e = NotFound)
            <-> fst (exec stmt (store w)) = inr []))
    /\ (forall (crypt : User.Bcrypt) (factor : Z) (hashed : obj)
               (w' : world D),
        User.rehash factor data w = (inr hashed, w') ->
        exists (setCols : string) (stmt : statement),
          Sql.sqlForPartialUpdate hashed User.update_columns =
            inr {| Sql.setCols := setCols;
                   Sql.values := Object_values hashed |}
          /\ length (Object_values hashed) = n
          /\ issued (snd (User.update factor key data w))
             = (issued w ++ [stmt])%list
          /\ params stmt = (Object_values hashed ++ [key])%list
          /\ nth_error (params stmt) n = Some key
          /\ length (params stmt) = n + 1
          /\ (exists before gap rest : string,
                 text stmt =
                   before ++ setCols ++ gap ++ "WHERE username = $"
                   ++ dec (n + 1) ++ rest)
          /\ ((exists e : error,
                  fst (User.update factor key data w) = inl e
                  /\ classify e = NotFound)
              <-> fst (exec stmt (store w)) = inr [])).
Proof.
  intros D db key data w Hne n. split; [|split].
  - eexists. eexists.
    split; [now apply sqlForPartialUpdate_nonempty|].
    split; [now apply Job_update_issued|].
    split; [reflexivity|].
    split; [apply nth_error_push|].
    split; [apply length_push|].
    split; [|now apply Job_update_not_found].
    subst n. cbn [text].
    destruct (Job_update_text_selector
                (Array_join ", "
                   (Array_map (Sql.assignment []) (Object_keys data)))
                (length (Object_values data) + 1))
      as [before [after [Htext [gap [rest Hafter]]]]].
    exists before, gap, rest. rewrite Htext, Hafter. reflexivity.
  - eexists. eexists.
    split; [now apply sqlForPartialUpdate_nonempty|].
    split; [now apply Company_update_issued|].
    split; [reflexivity|].
    split; [apply nth_error_push|].
    split; [apply length_push|].
    split; [|now apply Company_update_not_found].
    subst n. cbn [text].
    destruct (Company_update_text_selector
                (Array_join ", "
                   (Array_map (Sql.assignment Company.update_columns)
                      (Object_keys data)))
                (length (Object_values data) + 1))
      as [before [after [Htext [gap [rest Hafter]]]]].
    exists before, gap, rest. rewrite Htext, Hafter. reflexivity.
  - intros crypt factor hashed w' Hrun.
    assert (Hlen : length (Object_values hashed) = n).
    { subst n. destruct (rehash_keeps_keys factor _ _ _ _ Hrun) as [_ Hkeys].
      unfold Object_values. rewrite !length_map.
      rewrite <- (length_map fst hashed), <- (length_map fst data).
      unfold Object_keys in Hkeys. now rewrite Hkeys. }
    eexists. eexists.
    split; [apply sqlForPartialUpdate_nonempty;
            exact (rehash_nonempty factor _ _ _ _ Hrun Hne)|].
    split; [exact Hlen|].
    split; [exact (User_update_issued factor key data hashed w w' Hrun Hne)|].
    split; [reflexivity|].
    split; [rewrite <- Hlen; apply nth_error_push|].
    split; [rewrite <- Hlen; apply length_push|].
    split; [|exact (User_update_not_found factor key data hashed w w'
                      Hrun Hne)].
    rewrite <- Hlen. cbn [text].
    destruct (User_update_text_selector
                (Array_join ", "
                   (Array_map (Sql.assignment User.update_columns)
                      (Object_keys hashed)))
                (length (Object_values hashed) + 1))
      as [before [after [Htext [gap [rest Hafter]]]]].
    exists before, gap, rest. rewrite Htext, Hafter. reflexivity.
Qed.

Lemma update_selector_after_assignments_witness :
  new_terms <> []
  /\ exists stmt : statement,
      issued (snd (Job.update (VNum 201) new_terms
                     (start ([inr [conservator]] : Scripted.script))))
      = [stmt]
      /\ nth_error (params stmt) 3 = Some (VNum 201)
      /\ length (params stmt) = 4.
Proof.
  split; [discriminate|].
  destruct (update_selector_after_assignments Scripted.script
              Scripted.database (VNum 201) new_terms
              (start [inr [conservator]]))
    as [[setCols [stmt [_ [Hissued [_ [Hnth [Hlen _]]]]]]] _];
    [discriminate|].
  exists stmt. split; [exact Hissued|]. split; [exact Hnth|exact Hlen].
Defined.

(** C8. [applyToJob] first probes the job: with no row it throws
    [NotFoundError] having sent that probe alone, so the user is not
    probed.  With a job row it probes the user: with no row it throws
    [NotFoundError] having sent the two probes.  In both failures no
    [INSERT] is sent and the store is the one the probes left.  With
    both rows it sends the [INSERT] into [applications] as the third and
    last statement, no statement reading [applications] before it, and
    ends as the store answers the [INSERT]. *)
Theorem applyToJob_probes_then_inserts :
  forall (D : Type) (db : Database D) (username jobId : value) (w : world D),
    let jobProbe :=
      {| text := User.applyToJob_job_probe; params := [jobId] |} in
    let userProbe :=
      {| text := User.applyToJob_user_probe; params := [username] |} in
    let insert :=
      {| text := User.applyToJob_insert; params := [jobId; username] |} in
    (forall d1 : D,
        exec jobProbe (store w) = (inr [], d1) ->
        User.applyToJob username jobId w =
          (inl (NotFoundError ("No job: " ++ to_string jobId)),
           {| store := d1; issued := (issued w ++ [jobProbe])%list |}))
    /\ (forall (job : obj) (jobs : list obj) (d1 d2 : D),
        exec jobProbe (store w) = (inr (job :: jobs), d1) ->
        exec userProbe d1 = (inr [], d2) ->
        User.applyToJob username jobId w =
          (inl (NotFoundError ("No username: " ++ to_string username)),
           {| store := d2;
              issued := (issued w ++ [jobProbe; userProbe])%list |}))
    /\ (forall (job user : obj) (jobs users : list obj) (d1 d2 : D),
        exec jobProbe (store w) = (inr (job :: jobs), d1) ->
        exec userProbe d1 = (inr (user :: users), d2) ->
        User.applyToJob username jobId w =
          (match fst (exec insert d2) with
           | inl detail => inl (DriverError detail)
           | inr _ => inr VUndefined
           end,
           {| store := snd (exec insert d2);
              issued :=
                (issued w ++ [jobProbe; userProbe; insert])%list |})).
Proof.
  intros D db username jobId w jobProbe userProbe insert.
  split; [|split].
  - intros d1 Hjob. unfold User.applyToJob, bind.
    rewrite (query_answers _ _ w [] d1 Hjob). reflexivity.
  - intros job jobs d1 d2 Hjob Huser. unfold User.applyToJob, bind.
    rewrite (query_answers _ _ w (job :: jobs) d1 Hjob).
    rewrite (query_answers _ _ {| store := d1; issued := _ |} [] d2 Huser).
    simpl.
    unfold push. now rewrite <- app_assoc.
  - intros job user jobs users d1 d2 Hjob Huser.
    unfold User.applyToJob, bind.
    rewrite (query_answers _ _ w (job :: jobs) d1 Hjob).
    rewrite (query_answers _ _ {| store := d1; issued := _ |}
               (user :: users) d2 Huser).
    rewrite query_sends. simpl. fold insert.
    unfold push. repeat rewrite <- app_assoc. simpl.
    destruct (fst (exec insert d2)); reflexivity.
Qed.

Lemma applyToJob_probes_then_inserts_witness :
  exec {| text := User.applyToJob_job_probe; params := [VNum 404] |}
       (store (start ([inr []; inr [bob_row]] : Scripted.script)))
  = (inr [], [inr [bob_row]])
  /\ User.applyToJob (VStr "bob") (VNum 404)
       (start ([inr []; inr [bob_row]] : Scripted.script))
     = (inl (NotFoundError "No job: 404"),
        {| store := [inr [bob_row]];
           issued := [{| text := User.applyToJob_job_probe;
                         params := [VNum 404] |}] |}).
Proof.
  split; [reflexivity|].
  apply (proj1 (applyToJob_probes_then_inserts Scripted.script
                  Scripted.database (VStr "bob") (VNum 404)
                  (start [inr []; inr [bob_row]]))).
  reflexivity.
Defined.

(* ================================================================== *)
(** ** Objects: reading after [delete] and after an assignment *)
(* ================================================================== *)

Lemma has_delete_same (o : obj) (k : string) : has (delete o k) k = false.
Proof.
  induction o as [|[k' v] rest IH]; simpl; [reflexivity|].
  destruct (String.eqb_spec k' k) as [->|Hne]; simpl; [exact IH|].
  rewrite IH. now apply String.eqb_neq in Hne as ->.
Qed.

Lemma has_delete_other (o : obj) (k k' : string) :
  k' <> k -> has (delete o k) k' = has o k'.
Proof.
  intro Hne. induction o as [|[k0 v] rest IH]; simpl; [reflexivity|].
  destruct (String.eqb_spec k0 k) as [->|Hk0]; simpl.
  - rewrite IH. apply not_eq_sym, String.eqb_neq in Hne. now rewrite Hne.
  - now rewrite IH.
Qed.

Lemma get_delete_other (o : obj) (k k' : string) :
  k' <> k -> Js.get (delete o k) k' = Js.get o k'.
Proof.
  intro Hne. induction o as [|[k0 v] rest IH]; simpl; [reflexivity|].
  destruct (String.eqb_spec k0 k) as [->|Hk0]; simpl.
  - rewrite IH. apply not_eq_sym, String.eqb_neq in Hne. now rewrite Hne.
  - now rewrite IH.
Qed.

Lemma has_set (o : obj) (k k' : string) (v : value) :
  has (set o k v) k' = (k =? k') || has o k'.
Proof.
  induction o as [|[k0 v0] rest IH]; simpl.
  - now rewrite orb_false_r.
  - destruct (String.eqb_spec k0 k) as [->|Hk0]; simpl.
    + now destruct (k =? k'), (has rest k').
    + rewrite IH. now destruct (k0 =? k'), (k =? k'), (has rest k').
Qed.

Lemma get_set_same (o : obj) (k : string) (v : value) :
  Js.get (set o k v) k = v.
Proof.
  induction o as [|[k0 v0] rest IH]; simpl.
  - now rewrite String.eqb_refl.
  - destruct (String.eqb_spec k0 k) as [->|Hk0]; simpl.
    + now rewrite String.eqb_refl.
    + apply String.eqb_neq in Hk0. now rewrite Hk0.
Qed.

Lemma get_set_other (o : obj) (k k' : string) (v : value) :
  k' <> k -> Js.get (set o k v) k' = Js.get o k'.
Proof.
  intro Hne. induction o as [|[k0 v0] rest IH]; simpl.
  - apply not_eq_sym, String.eqb_neq in Hne. now rewrite Hne.
  - destruct (String.eqb_spec k0 k) as [->|Hk0]; simpl.
    + apply not_eq_sym, String.eqb_neq in Hne. now rewrite Hne.
    + now rewrite IH.
Qed.

Lemma has_listed (row : obj) (listed : list string) (k : string) :
  incl (Object_keys row) listed -> ~ In k listed -> has row k = false.
Proof.
  intros Hincl Hout. induction row as [|[k0 v] rest IH]; simpl; [reflexivity|].
  destruct (String.eqb_spec k0 k) as [->|Hne]; simpl.
  - exfalso. apply Hout, Hincl. now left.
  - apply IH. intros x Hx. apply Hincl. now right.
Qed.

Lemma scripted_honours : HonoursReturning Scripted.script.
Proof.
  intros stmt d d' rows listed Hexec Hnames.
  simpl in Hexec. unfold Scripted.answer_next in Hexec.
  destruct d as [|answer rest].
  - injection Hexec as <- _. constructor.
  - unfold Scripted.shape in Hexec. rewrite Hnames in Hexec.
    destruct answer as [detail|prepared]; [discriminate|].
    injection Hexec as <- _.
    apply Forall_forall. intros row Hrow.
    apply in_map_iff in Hrow as [source [<- _]].
    intros k Hk. unfold Object_keys in Hk.
    apply in_map_iff in Hk as [[k0 v] [<- Hkv]]. simpl.
    apply filter_In in Hkv as [_ Hkeep]. simpl in Hkeep.
    apply existsb_exists in Hkeep as [name [Hname Heq]].
    apply String.eqb_eq in Heq. now subst.
Qed.

(** C9. Whenever [register], [authenticate] or [update] returns, what
    it returns has no [password] property.  [authenticate] and [update]
    delete it from the row, whatever the store sent and whether or not
    the payload carried a password.  [register] returns the row of an
    [INSERT] whose [RETURNING] list does not name it; there the store is
    required to honour the list. *)
Theorem write_results_hide_password :
  forall (D : Type) (db : Database D) (crypt : User.Bcrypt) (factor : Z),
    (HonoursReturning D ->
     forall (data : obj) (w w' : world D) (v : value),
       User.register factor data w = (inr v, w') ->
       has_field v "password" = false)
    /\ (forall (username password : value) (w w' : world D) (v : value),
        User.authenticate username password w = (inr v, w') ->
        has_field v "password" = false)
    /\ (forall (username : value) (data : obj) (w w' : world D) (v : value),
        User.update factor username data w = (inr v, w') ->
        has_field v "password" = false).
Proof.
  intros D db crypt factor. split; [|split].
  - intros Hstore data w w' v Hrun. unfold User.register in Hrun.
    apply bind_returns in Hrun as [found [w1 [_ Hrun]]].
    destruct found as [|dup dups]; [|discriminate].
    apply bind_returns in Hrun as [hashed [w2 [_ Hrun]]].
    apply bind_returns in Hrun as [result [w3 [Hinsert Hret]]].
    injection Hret as <- _.
    apply query_returns in Hinsert.
    assert (Hrows :
              Forall (fun row =>
                        incl (Object_keys row)
                          ["username"; "firstName"; "lastName"; "email";
                           "isAdmin"]) result).
    { exact (Hstore _ _ _ _ _ Hinsert eq_refl). }
    destruct result as [|user rest]; [reflexivity|]. simpl.
    inversion Hrows as [|? ? Huser _]; subst.
    apply (has_listed user _ "password" Huser).
    simpl. intuition discriminate.
  - intros username password w w' v Hrun. unfold User.authenticate in Hrun.
    apply bind_returns in Hrun as [result [w1 [_ Hrun]]].
    destruct result as [|user rest]; [discriminate|].
    apply bind_returns in Hrun as [isValid [w2 [_ Hrun]]].
    destruct isValid; [|discriminate].
    injection Hrun as <- _. apply has_delete_same.
  - intros username data w w' v Hrun. unfold User.update in Hrun.
    apply bind_returns in Hrun as [data' [w1 [_ Hrun]]].
    apply bind_returns in Hrun as [parts [w2 [_ Hrun]]].
    apply bind_returns in Hrun as [result [w3 [_ Hrun]]].
    destruct result as [|user rest]; [discriminate|].
    injection Hrun as <- _. apply has_delete_same.
Qed.

Lemma write_results_hide_password_witness :
  HonoursReturning Scripted.script
  /\ (User.register 12%Z bob (start ([inr []; inr [bob_row]] : Scripted.script))
      = (inr (VObj (delete bob_row "password")),
         {| store := [];
            issued :=
              [{| text := User.register_probe; params := [VStr "bob"] |};
               {| text := User.register_insert;
                  params := [VStr "bob"; Scripted.digest (VStr "hunter2");
                             VStr "Bob"; VStr "Roe"; VStr "bob@example.com";
                             VBool false] |}] |})
      /\ has_field (VObj (delete bob_row "password")) "password" = false)
  /\ has_field (VObj bob_row) "password" = true
  /\ User.authenticate (VStr "bob") (VStr "hunter2")
       (start ([inr [bob_row]] : Scripted.script))
     = (inr (VObj (delete bob_row "password")),
        {| store := [];
           issued := [{| text := User.authenticate_select;
                         params := [VStr "bob"] |}] |})
  /\ has_field (VObj (delete bob_row "password")) "password" = false.
Proof.
  split; [exact scripted_honours|].
  split.
  { split; [reflexivity|].
    apply (proj1 (write_results_hide_password Scripted.script
                    Scripted.database Scripted.bcrypt 12%Z)
             scripted_honours bob (start [inr []; inr [bob_row]])
             {| store := [];
                issued :=
                  [{| text := User.register_probe; params := [VStr "bob"] |};
                   {| text := User.register_insert;
                      params := [VStr "bob"; Scripted.digest (VStr "hunter2");
                                 VStr "Bob"; VStr "Roe";
                                 VStr "bob@example.com"; VBool false] |}] |}).
    reflexivity. }
  split; [reflexivity|].
  split; [reflexivity|].
  apply (proj1 (proj2 (write_results_hide_password Scripted.script
                         Scripted.database Scripted.bcrypt 12%Z))
           (VStr "bob") (VStr "hunter2") (start [inr [bob_row]])
           {| store := [];
              issued := [{| text := User.authenticate_select;
                            params := [VStr "bob"] |}] |}).
  reflexivity.
Defined.

(** C10, as observed on the code.  When the primary read answers with
    a row and the secondary read on [companies], bound to that row's
    [companyHandle], answers, [Job.get] returns the row without
    [companyHandle] and with a [company] property holding [rows[0]] of
    the secondary read: the company row when there is one, [undefined]
    when the read gave none.  The other properties are those of the
    primary row, and the two reads are the only statements sent.  When
    the secondary read is rejected, [Job.get] throws the rejection and
    returns nothing.  Whatever the store, a value returned by [Job.get]
    has no [companyHandle] property. *)
Theorem get_nests_company :
  forall (D : Type) (db : Database D) (id : value) (w : world D),
    (forall (job : obj) (others companies : list obj) (d1 d2 : D),
        let primary := {| text := Job.get_select; params := [id] |} in
        let secondary :=
          {| text := Job.get_company_select;
             params := [Js.get job "companyHandle"] |} in
        exec primary (store w) = (inr (job :: others), d1) ->
        exec secondary d1 = (inr companies, d2) ->
        exists record : obj,
          Job.get id w =
            (inr (VObj record),
             {| store := d2;
                issued := (issued w ++ [primary; secondary])%list |})
          /\ has record "companyHandle" = false
          /\ has record "company" = true
          /\ Js.get record "company" = first_row companies
          /\ (forall (company : obj) (rest : list obj),
                 companies = company :: rest ->
                 Js.get record "company" = VObj company)
          /\ (forall k : string,
                 k <> "companyHandle" -> k <> "company" ->
                 Js.get record k = Js.get job k))
    /\ (forall (job : obj) (others : list obj) (detail : string) (d1 d2 : D),
        let primary := {| text := Job.get_select; params := [id] |} in
        let secondary :=
          {| text := Job.get_company_select;
             params := [Js.get job "companyHandle"] |} in
        exec primary (store w) = (inr (job :: others), d1) ->
        exec secondary d1 = (inl detail, d2) ->
        Job.get id w =
          (inl (DriverError detail),
           {| store := d2;
              issued := (issued w ++ [primary; secondary])%list |}))
    /\ (forall (w' : world D) (v : value),
        Job.get id w = (inr v, w') -> has_field v "companyHandle" = false).
Proof.
  intros D db id w. split; [|split].
  - intros job others companies d1 d2 primary secondary Hjob Hcompany.
    exists (set (delete job "companyHandle") "company" (first_row companies)).
    split.
    { unfold Job.get, bind.
      rewrite (query_answers _ _ w (job :: others) d1 Hjob).
      rewrite (query_answers _ _ {| store := d1; issued := _ |}
                 companies d2 Hcompany).
      simpl. unfold push. now rewrite <- app_assoc. }
    split.
    { rewrite has_set. simpl. apply has_delete_same. }
    split.
    { rewrite has_set. now rewrite String.eqb_refl. }
    split; [apply get_set_same|].
    split.
    { intros company rest ->. apply get_set_same. }
    intros k Hhandle Hcomp.
    rewrite (get_set_other _ _ _ _ Hcomp).
    now apply get_delete_other.
  - intros job others detail d1 d2 primary secondary Hjob Hcompany.
    unfold Job.get, bind.
    rewrite (query_answers _ _ w (job :: others) d1 Hjob).
    rewrite query_sends. simpl. fold secondary. rewrite Hcompany. simpl.
    unfold push. now rewrite <- app_assoc.
  - intros w' v Hrun. unfold Job.get in Hrun.
    apply bind_returns in Hrun as [jobRes [w1 [_ Hrun]]].
    destruct jobRes as [|job others]; [discriminate|].
    apply bind_returns in Hrun as [companies [w2 [_ Hrun]]].
    injection Hrun as <- _. simpl.
    rewrite has_set. simpl. apply has_delete_same.
Qed.

Lemma get_nests_company_witness :
  exec {| text := Job.get_select; params := [VNum 201] |}
       (store (start ([inr [conservator]; inr [watson_davis]]
                      : Scripted.script)))
  = (inr [conservator], [inr [watson_davis]])
  /\ exec {| text := Job.get_company_select;
             params := [Js.get conservator "companyHandle"] |}
          ([inr [watson_davis]] : Scripted.script)
     = (inr [watson_davis], [])
  /\ exists record : obj,
      fst (Job.get (VNum 201)
             (start ([inr [conservator]; inr [watson_davis]]
                     : Scripted.script)))
      = inr (VObj record)
      /\ has record "companyHandle" = false
      /\ Js.get record "company" = VObj watson_davis.
Proof.
  split; [reflexivity|]. split; [reflexivity|].
  destruct (proj1 (get_nests_company Scripted.script Scripted.database
                     (VNum 201)
                     (start [inr [conservator]; inr [watson_davis]]))
              conservator [] [watson_davis] [inr [watson_davis]] []
              eq_refl eq_refl)
    as [record [Hrun [Hflat [_ [Hcompany _]]]]].
  exists record. split; [exact (f_equal fst Hrun)|].
  split; [exact Hflat|exact Hcompany].
Defined.

(** C10 as worded does not hold: the identifier of [conservator]
    resolves to a row, yet with no row for its company [Job.get] returns
    a record whose [company] is [undefined], no nested object; and with
    the secondary read rejected it returns no record at all. *)
Lemma get_company_row_missing :
  fst (exec {| text := Job.get_select; params := [VNum 201] |}
         (store (start ([inr [conservator]; inr []] : Scripted.script))))
  = inr [conservator]
  /\ (exists record : obj,
         fst (Job.get (VNum 201)
                (start ([inr [conservator]; inr []] : Scripted.script)))
         = inr (VObj record)
         /\ Js.get record "company" = VUndefined
         /\ forall company : obj, Js.get record "company" <> VObj company)
  /\ fst (Job.get (VNum 201)
            (start ([inr [conservator]; inl "connection lost"]
                    : Scripted.script)))
     = inl (DriverError "connection lost").
Proof.
  split; [reflexivity|]. split; [|reflexivity].
  eexists. split; [reflexivity|]. split; [reflexivity|].
  intros company Hobject. discriminate Hobject.
Qed.

(** The record quoted at the end of [Job.get]. *)
Example get_conservator :
  fst (Job.get (VNum 201)
         (start ([inr [conservator]; inr [watson_davis]] : Scripted.script)))
  = inr (VObj [("id", VNum 201); ("title", VStr "Conservator, clothing");
               ("salary", VNum 95000); ("equity", VStr "0");
               ("company", VObj watson_davis)]).
Proof. reflexivity. Qed.

(* ================================================================== *)
(** ** Further properties: delete and single-row reads *)
(* ================================================================== *)

Section SingleRow.
Context {D : Type} `{Database D}.

(** The three [remove] models and the first step of the three [get]
    models share one shape: send a statement bound to the key and look
    at the first row. *)
Ltac first_row_cases :=
  unfold Job.remove, Company.remove, User.remove,
    Job.get, Company.get, User.get, bind;
  rewrite query_sends; simpl;
  match goal with
  | |- context [fst (exec ?stmt ?d)] =>
      destruct (fst (exec stmt d)) as [detail|[|row rows]]
  end; simpl.

Ltac settle :=
  repeat match goal with
         | |- _ /\ _ => split
         | |- _ <-> _ => split
         | |- forall _, _ => intro
         | H : exists _, _ |- _ => destruct H
         | H : _ /\ _ |- _ => destruct H
         | H : inl _ = inl _ |- _ => injection H as <-
         | H : inr _ = inr _ |- _ => injection H as <-
         end;
  try discriminate; try reflexivity; eauto.

Lemma Job_remove_outcome (id : value) (w : world D) :
  let stmt := {| text := Job.remove_text; params := [id] |} in
  issued (snd (Job.remove id w)) = (issued w ++ [stmt])%list
  /\ ((exists e : error,
          fst (Job.remove id w) = inl e /\ classify e = NotFound)
      <-> fst (exec stmt (store w)) = inr [])
  /\ ((exists v : value, fst (Job.remove id w) = inr v)
      <-> exists (row : obj) (rows : list obj),
          fst (exec stmt (store w)) = inr (row :: rows))
  /\ (forall v : value, fst (Job.remove id w) = inr v -> v = VUndefined).
Proof. first_row_cases; settle. Qed.

Lemma Company_remove_outcome (handle : value) (w : world D) :
  let stmt := {| text := Company.remove_text; params := [handle] |} in
  issued (snd (Company.remove handle w)) = (issued w ++ [stmt])%list
  /\ ((exists e : error,
          fst (Company.remove handle w) = inl e /\ classify e = NotFound)
      <-> fst (exec stmt (store w)) = inr [])
  /\ ((exists v : value, fst (Company.remove handle w) = inr v)
      <-> exists (row : obj) (rows : list obj),
          fst (exec stmt (store w)) = inr (row :: rows))
  /\ (forall v : value, fst (Company.remove handle w) = inr v -> v = VUndefined).
Proof. first_row_cases; settle. Qed.

Lemma User_remove_outcome (username : value) (w : world D) :
  let stmt := {| text := User.remove_text; params := [username] |} in
  issued (snd (User.remove username w)) = (issued w ++ [stmt])%list
  /\ ((exists e : error,
          fst (User.remove username w) = inl e /\ classify e = NotFound)
      <-> fst (exec stmt (store w)) = inr [])
  /\ ((exists v : value, fst (User.remove username w) = inr v)
      <-> exists (row : obj) (rows : list obj),
          fst (exec stmt (store w)) = inr (row :: rows))
  /\ (forall v : value, fst (User.remove username w) = inr v -> v = VUndefined).
Proof. first_row_cases; settle. Qed.

Lemma Job_get_absent (id : value) (w : world D) :
  let primary := {| text := Job.get_select; params := [id] |} in
  ((exists e : error,
       fst (Job.get id w) = inl e /\ classify e = NotFound)
   <-> fst (exec primary (store w)) = inr [])
  /\ ((forall (row : obj) (rows : list obj),
         fst (exec primary (store w)) <> inr (row :: rows)) ->
      issued (snd (Job.get id w)) = (issued w ++ [primary])%list).
Proof.
  first_row_cases; try (rewrite query_sends; simpl);
    try match goal with
        | |- context [fst (exec ?stmt ?d)] =>
            destruct (fst (exec stmt d)) as [detail'|rows']
        end; simpl; settle;
    match goal with
    | Hno : forall row rows, _ <> _ |- _ => now destruct (Hno _ _ eq_refl)
    end.
Qed.

Lemma Company_get_absent (handle : value) (w : world D) :
  let primary := {| text := Company.get_select; params := [handle] |} in
  ((exists e : error,
       fst (Company.get handle w) = inl e /\ classify e = NotFound)
   <-> fst (exec primary (store w)) = inr [])
  /\ ((forall (row : obj) (rows : list obj),
         fst (exec primary (store w)) <> inr (row :: rows)) ->
      issued (snd (Company.get handle w)) = (issued w ++ [primary])%list).
Proof.
  first_row_cases; try (rewrite query_sends; simpl);
    try match goal with
        | |- context [fst (exec ?stmt ?d)] =>
            destruct (fst (exec stmt d)) as [detail'|rows']
        end; simpl; settle;
    match goal with
    | Hno : forall row rows, _ <> _ |- _ => now destruct (Hno _ _ eq_refl)
    end.
Qed.

Lemma User_get_absent (username : value) (w : world D) :
  let primary := {| text := User.get_select; params := [username] |} in
  ((exists e : error,
       fst (User.get username w) = inl e /\ classify e = NotFound)
   <-> fst (exec primary (store w)) = inr [])
  /\ ((forall (row : obj) (rows : list obj),
         fst (exec primary (store w)) <> inr (row :: rows)) ->
      issued (snd (User.get username w)) = (issued w ++ [primary])%list).
Proof.
  first_row_cases; try (rewrite query_sends; simpl);
    try match goal with
        | |- context [fst (exec ?stmt ?d)] =>
            destruct (fst (exec stmt d)) as [detail'|rows']
        end; simpl; settle;
    match goal with
    | Hno : forall row rows, _ <> _ |- _ => now destruct (Hno _ _ eq_refl)
    end.
Qed.

End SingleRow.

(** X1. [Job.remove], [Company.remove] and [User.remove] each send one
    [DELETE ... RETURNING] bound to the key and nothing else.  They
    throw an error of the NotFound category exactly when the store
    answers with no row, return exactly when it answers with a row, and
    what they return is [undefined], never the deleted row. *)
Theorem remove_fails_exactly_on_no_row :
  forall (D : Type) (db : Database D) (key : value) (w : world D),
    (let stmt := {| text := Job.remove_text; params := [key] |} in
     issued (snd (Job.remove key w)) = (issued w ++ [stmt])%list
     /\ ((exists e : error,
             fst (Job.remove key w) = inl e /\ classify e = NotFound)
         <-> fst (exec stmt (store w)) = inr [])
     /\ ((exists v : value, fst (Job.remove key w) = inr v)
         <-> exists (row : obj) (rows : list obj),
             fst (exec stmt (store w)) = inr (row :: rows))
     /\ (forall v : value, fst (Job.remove key w) = inr v -> v = VUndefined))
    /\ (let stmt := {| text := Company.remove_text; params := [key] |} in
        issued (snd (Company.remove key w)) = (issued w ++ [stmt])%list
        /\ ((exists e : error,
                fst (Company.remove key w) = inl e /\ classify e = NotFound)
            <-> fst (exec stmt (store w)) = inr [])
        /\ ((exists v : value, fst (Company.remove key w) = inr v)
            <-> exists (row : obj) (rows : list obj),
                fst (exec stmt (store w)) = inr (row :: rows))
        /\ (forall v : value,
               fst (Company.remove key w) = inr v -> v = VUndefined))
    /\ (let stmt := {| text := User.remove_text; params := [key] |} in
        issued (snd (User.remove key w)) = (issued w ++ [stmt])%list
        /\ ((exists e : error,
                fst (User.remove key w) = inl e /\ classify e = NotFound)
            <-> fst (exec stmt (store w)) = inr [])
        /\ ((exists v : value, fst (User.remove key w) = inr v)
            <-> exists (row : obj) (rows : list obj),
                fst (exec stmt (store w)) = inr (row :: rows))
        /\ (forall v : value,
               fst (User.remove key w) = inr v -> v = VUndefined)).
Proof.
  intros D db key w. split; [|split].
  - apply Job_remove_outcome.
  - apply Company_remove_outcome.
  - apply User_remove_outcome.
Qed.

Lemma remove_fails_exactly_on_no_row_witness :
  fst (exec {| text := Job.remove_text; params := [VNum 404] |}
         (store (start ([inr []] : Scripted.script))))
  = inr []
  /\ exists e : error,
      fst (Job.remove (VNum 404) (start ([inr []] : Scripted.script))) = inl e
      /\ classify e = NotFound.
Proof.
  split; [reflexivity|].
  destruct (remove_fails_exactly_on_no_row Scripted.script Scripted.database
              (VNum 404) (start [inr []]))
    as [[_ [[_ Hback] _]] _].
  apply Hback. reflexivity.
Defined.

(** X2. [Job.get], [Company.get] and [User.get] throw an error of the
    NotFound category exactly when the primary read answers with no
    row; a rejected secondary read is never reported as NotFound.  When
    the primary read gives no row, or is rejected, it is the only
    statement sent: the secondary read is not attempted. *)
Theorem get_fails_exactly_on_no_row :
  forall (D : Type) (db : Database D) (key : value) (w : world D),
    (let primary := {| text := Job.get_select; params := [key] |} in
     ((exists e : error,
          fst (Job.get key w) = inl e /\ classify e = NotFound)
      <-> fst (exec primary (store w)) = inr [])
     /\ ((forall (row : obj) (rows : list obj),
            fst (exec primary (store w)) <> inr (row :: rows)) ->
         issued (snd (Job.get key w)) = (issued w ++ [primary])%list))
    /\ (let primary := {| text := Company.get_select; params := [key] |} in
        ((exists e : error,
             fst (Company.get key w) = inl e /\ classify e = NotFound)
         <-> fst (exec primary (store w)) = inr [])
        /\ ((forall (row : obj) (rows : list obj),
               fst (exec primary (store w)) <> inr (row :: rows)) ->
            issued (snd (Company.get key w)) = (issued w ++ [primary])%list))
    /\ (let primary := {| text := User.get_select; params := [key] |} in
        ((exists e : error,
             fst (User.get key w) = inl e /\ classify e = NotFound)
         <-> fst (exec primary (store w)) = inr [])
        /\ ((forall (row : obj) (rows : list obj),
               fst (exec primary (store w)) <> inr (row :: rows)) ->
            issued (snd (User.get key w)) = (issued w ++ [primary])%list)).
Proof.
  intros D db key w. split; [|split].
  - apply Job_get_absent.
  - apply Company_get_absent.
  - apply User_get_absent.
Qed.

Lemma get_fails_exactly_on_no_row_witness :
  fst (exec {| text := User.get_select; params := [VStr "nobody"] |}
         (store (start ([inr []] : Scripted.script))))
  = inr []
  /\ (exists e : error,
         fst (User.get (VStr "nobody") (start ([inr []] : Scripted.script)))
         = inl e
         /\ classify e = NotFound)
  /\ issued (snd (User.get (VStr "nobody")
                    (start ([inr []] : Scripted.script))))
     = [{| text := User.get_select; params := [VStr "nobody"] |}].
Proof.
  split; [reflexivity|].
  destruct (get_fails_exactly_on_no_row Scripted.script Scripted.database
              (VStr "nobody") (start [inr []]))
    as [_ [_ [[_ Hback] Hone]]].
  split.
  - apply Hback. reflexivity.
  - apply Hone. intros row rows. discriminate.
Defined.

(* ================================================================== *)
(** ** Further properties: the derived associations *)
(* ================================================================== *)

Lemma values_of_indexed (xs : list value) :
  forall idx : nat,
    Object_values (map_from (fun x i => (dec i, x)) idx xs) = xs.
Proof.
  induction xs as [|x rest IH]; intro idx; simpl; [reflexivity|].
  f_equal. apply IH.
Qed.

Lemma elements_Array_of (xs : list value) : elements (Array_of xs) = xs.
Proof. apply values_of_indexed. Qed.

Lemma keys_set_absent (o : obj) (k : string) (v : value) :
  has o k = false -> Object_keys (set o k v) = (Object_keys o ++ [k])%list.
Proof.
  induction o as [|[k0 v0] rest IH]; simpl; [reflexivity|].
  destruct (k0 =? k); simpl; [discriminate|].
  intro Hrest. f_equal. now apply IH.
Qed.

(** X3. When the user row exists and the read on [applications]
    answers, [User.get] returns the user row with a [jobs] property
    whose elements are the [job_id] of the application rows, in the
    order the store gave them; every other property is the user row's;
    [jobs] is added last when the row had none; and the two reads are
    the only statements sent, the second bound to the requested
    username. *)
Theorem User_get_lists_applications :
  forall (D : Type) (db : Database D) (username : value) (w : world D)
         (user : obj) (others applications : list obj) (d1 d2 : D),
    let primary := {| text := User.get_select; params := [username] |} in
    let secondary :=
      {| text := User.get_applications_select; params := [username] |} in
    exec primary (store w) = (inr (user :: others), d1) ->
    exec secondary d1 = (inr applications, d2) ->
    exists record : obj,
      User.get username w =
        (inr (VObj record),
         {| store := d2;
            issued := (issued w ++ [primary; secondary])%list |})
      /\ elements (Js.get record "jobs")
         = map (fun a => Js.get a "job_id") applications
      /\ (forall k : string, k <> "jobs" -> Js.get record k = Js.get user k)
      /\ (has user "jobs" = false ->
          Object_keys record = (Object_keys user ++ ["jobs"])%list).
Proof.
  intros D db username w user others applications d1 d2 primary secondary
         Huser Happs.
  exists (set user "jobs"
            (Array_of (map (fun a => Js.get a "job_id") applications))).
  split.
  { unfold User.get, bind.
    rewrite (query_answers _ _ w (user :: others) d1 Huser).
    rewrite (query_answers _ _ {| store := d1; issued := _ |}
               applications d2 Happs).
    simpl. unfold push. now rewrite <- app_assoc. }
  split; [rewrite get_set_same; apply elements_Array_of|].
  split; [intros k Hk; now apply get_set_other|].
  apply keys_set_absent.
Qed.

Lemma User_get_lists_applications_witness :
  exec {| text := User.get_select; params := [VStr "BlossBloss"] |}
       (store (start ([inr [blossom]; inr blossom_applications]
                      : Scripted.script)))
  = (inr [blossom], [inr blossom_applications])
  /\ exec {| text := User.get_applications_select;
             params := [VStr "BlossBloss"] |}
          ([inr blossom_applications] : Scripted.script)
     = (inr blossom_applications, [])
  /\ exists record : obj,
      fst (User.get (VStr "BlossBloss")
             (start ([inr [blossom]; inr blossom_applications]
                     : Scripted.script)))
      = inr (VObj record)
      /\ elements (Js.get record "jobs") = [VNum 1; VNum 25].
Proof.
  split; [reflexivity|]. split; [reflexivity|].
  destruct (User_get_lists_applications Scripted.script Scripted.database
              (VStr "BlossBloss")
              (start [inr [blossom]; inr blossom_applications])
              blossom [] blossom_applications [inr blossom_applications] []
              eq_refl eq_refl)
    as [record [Hrun [Hjobs _]]].
  exists record. split; [exact (f_equal fst Hrun)|exact Hjobs].
Defined.

(** X4. When the company row exists and the read on [jobs] answers,
    [Company.get] returns the company row with a [jobs] property whose
    elements are the job rows as the store gave them, in order; every
    other property is the company row's; and the two reads are the only
    statements sent.  The read on [jobs] is bound to the handle that was
    asked for, not to the handle of the row read. *)
Theorem Company_get_lists_jobs :
  forall (D : Type) (db : Database D) (handle : value) (w : world D)
         (company : obj) (others jobs : list obj) (d1 d2 : D),
    let primary := {| text := Company.get_select; params := [handle] |} in
    let secondary :=
      {| text := Company.get_jobs_select; params := [handle] |} in
    exec primary (store w) = (inr (company :: others), d1) ->
    exec secondary d1 = (inr jobs, d2) ->
    exists record : obj,
      Company.get handle w =
        (inr (VObj record),
         {| store := d2;
            issued := (issued w ++ [primary; secondary])%list |})
      /\ elements (Js.get record "jobs") = map VObj jobs
      /\ (forall k : string,
             k <> "jobs" -> Js.get record k = Js.get company k)
      /\ (has company "jobs" = false ->
          Object_keys record = (Object_keys company ++ ["jobs"])%list).
Proof.
  intros D db handle w company others jobs d1 d2 primary secondary
         Hcompany Hjobs.
  exists (set company "jobs" (Array_of (map VObj jobs))).
  split.
  { unfold Company.get, bind.
    rewrite (query_answers _ _ w (company :: others) d1 Hcompany).
    rewrite (query_answers _ _ {| store := d1; issued := _ |}
               jobs d2 Hjobs).
    simpl. unfold push. now rewrite <- app_assoc. }
  split; [rewrite get_set_same; apply elements_Array_of|].
  split; [intros k Hk; now apply get_set_other|].
  apply keys_set_absent.
Qed.

Lemma Company_get_lists_jobs_witness :
  exec {| text := Company.get_select; params := [VStr "watson-davis"] |}
       (store (start ([inr [watson_davis]; inr [conservator_brief]]
                      : Scripted.script)))
  = (inr [watson_davis], [inr [conservator_brief]])
  /\ exec {| text := Company.get_jobs_select;
             params := [VStr "watson-davis"] |}
          ([inr [conservator_brief]] : Scripted.script)
     = (inr [conservator_brief], [])
  /\ exists record : obj,
      fst (Company.get (VStr "watson-davis")
             (start ([inr [watson_davis]; inr [conservator_brief]]
                     : Scripted.script)))
      = inr (VObj record)
      /\ elements (Js.get record "jobs") = [VObj conservator_brief]
      /\ Js.get record "name" = VStr "Watson-Davis".
Proof.
  split; [reflexivity|]. split; [reflexivity|].
  destruct (Company_get_lists_jobs Scripted.script Scripted.database
              (VStr "watson-davis")
              (start [inr [watson_davis]; inr [conservator_brief]])
              watson_davis [] [conservator_brief]
              [inr [conservator_brief]] [] eq_refl eq_refl)
    as [record [Hrun [Hjobs [Hrest _]]]].
  exists record. split; [exact (f_equal fst Hrun)|].
  split; [exact Hjobs|].
  rewrite Hrest; [reflexivity|discriminate].
Defined.

(* ================================================================== *)
(** ** Further properties: accounts *)
(* ================================================================== *)

(** X5. [authenticate] sends one read and nothing else.  An unknown
    username and a wrong password end in the same error, value for
    value.  It returns exactly when the read gives a row and [bcrypt]
    accepts the password against that row's stored one, and what it
    returns is that row without [password]. *)
Theorem authenticate_outcomes :
  forall (D : Type) (db : Database D) (crypt : User.Bcrypt)
         (username password : value) (w : world D),
    let lookup :=
      {| text := User.authenticate_select; params := [username] |} in
    let denied := UnauthorizedError "Invalid username/password" in
    issued (snd (User.authenticate username password w))
    = (issued w ++ [lookup])%list
    /\ (fst (exec lookup (store w)) = inr [] ->
        fst (User.authenticate username password w) = inl denied)
    /\ (forall (user : obj) (rest : list obj),
           fst (exec lookup (store w)) = inr (user :: rest) ->
           User.compare password (Js.get user "password") = inr false ->
           fst (User.authenticate username password w) = inl denied)
    /\ (forall v : value,
           fst (User.authenticate username password w) = inr v
           <-> exists (user : obj) (rest : list obj),
               fst (exec lookup (store w)) = inr (user :: rest)
               /\ User.compare password (Js.get user "password") = inr true
               /\ v = VObj (delete user "password")).
Proof.
  intros D db crypt username password w lookup denied.
  unfold User.authenticate, bind. rewrite query_sends. simpl.
  fold lookup.
  destruct (fst (exec lookup (store w))) as [detail|[|user rest]]; simpl.
  - repeat split; try discriminate.
    intros [user [rest [Hrow _]]]. discriminate.
  - repeat split; try discriminate.
    intros [user [rest [Hrow _]]]. discriminate.
  - unfold lift.
    destruct (User.compare password (Js.get user "password"))
      as [e|[|]] eqn:Hcompare; simpl.
    + repeat split; try discriminate.
      * intros user' rest' Hrow Hfalse. injection Hrow as <- _.
        rewrite Hcompare in Hfalse. discriminate.
      * intros [user' [rest' [Hrow [Htrue _]]]]. injection Hrow as <- _.
        rewrite Hcompare in Htrue. discriminate.
    + repeat split; try discriminate.
      * intros user' rest' Hrow Hfalse. injection Hrow as <- _.
        rewrite Hcompare in Hfalse. discriminate.
      * intro Hv. injection Hv as <-. now exists user, rest.
      * intros [user' [rest' [Hrow [_ ->]]]]. now injection Hrow as <- _.
    + repeat split; try discriminate.
      intros [user' [rest' [Hrow [Htrue _]]]]. injection Hrow as <- _.
      rewrite Hcompare in Htrue. discriminate.
Qed.

Lemma authenticate_outcomes_witness :
  fst (exec {| text := User.authenticate_select; params := [VStr "bob"] |}
         (store (start ([inr [bob_row]] : Scripted.script))))
  = inr [bob_row]
  /\ User.compare (VStr "guess") (Js.get bob_row "password") = inr false
  /\ fst (User.authenticate (VStr "bob") (VStr "guess")
            (start ([inr [bob_row]] : Scripted.script)))
     = inl (UnauthorizedError "Invalid username/password")
  /\ fst (User.authenticate (VStr "nobody") (VStr "guess")
            (start ([inr []] : Scripted.script)))
     = inl (UnauthorizedError "Invalid username/password").
Proof.
  split; [reflexivity|]. split; [reflexivity|].
  split.
  - destruct (authenticate_outcomes Scripted.script Scripted.database
                Scripted.bcrypt (VStr "bob") (VStr "guess")
                (start [inr [bob_row]]))
      as [_ [_ [Hwrong _]]].
    apply (Hwrong bob_row []); reflexivity.
  - destruct (authenticate_outcomes Scripted.script Scripted.database
                Scripted.bcrypt (VStr "nobody") (VStr "guess")
                (start [inr []]))
      as [_ [Hunknown _]].
    apply Hunknown. reflexivity.
Defined.

(** X6. Once the probe has found no row, [register] hashes the password
    and sends one [INSERT] whose second bound value is the [bcrypt]
    result, the other five being the payload's fields in column order;
    if [bcrypt] rejects, that error is thrown and the probe remains the
    only statement sent.  No statement sent by [register] is other than
    the probe or such an [INSERT]. *)
Theorem register_binds_the_hash :
  forall (D : Type) (db : Database D) (crypt : User.Bcrypt) (factor : Z)
         (data : obj) (w : world D),
    let probe :=
      {| text := User.register_probe;
         params := [Js.get data "username"] |} in
    let insert (hashed : value) :=
      {| text := User.register_insert;
         params := [Js.get data "username"; hashed;
                    Js.get data "firstName"; Js.get data "lastName";
                    Js.get data "email"; Js.get data "isAdmin"] |} in
    (forall (d1 : D) (hashed : value),
        exec probe (store w) = (inr [], d1) ->
        User.hash (Js.get data "password") factor = inr hashed ->
        User.register factor data w =
          (match fst (exec (insert hashed) d1) with
           | inl detail => inl (DriverError detail)
           | inr rows => inr (first_row rows)
           end,
           {| store := snd (exec (insert hashed) d1);
              issued := (issued w ++ [probe; insert hashed])%list |}))
    /\ (forall (d1 : D) (e : error),
        exec probe (store w) = (inr [], d1) ->
        User.hash (Js.get data "password") factor = inl e ->
        User.register factor data w =
          (inl e, {| store := d1; issued := (issued w ++ [probe])%list |}))
    /\ (forall stmt : statement,
        In stmt (issued (snd (User.register factor data w))) ->
        In stmt (issued w) \/ stmt = probe
        \/ exists hashed : value,
            User.hash (Js.get data "password") factor = inr hashed
            /\ stmt = insert hashed).
Proof.
  intros D db crypt factor data w probe insert. split; [|split].
  - intros d1 hashed Hprobe Hhash. unfold User.register, bind.
    rewrite (query_answers _ _ w [] d1 Hprobe). rewrite Hhash. simpl.
    rewrite query_sends. simpl. fold (insert hashed).
    unfold push. rewrite <- app_assoc. simpl.
    destruct (fst (exec (insert hashed) d1)); reflexivity.
  - intros d1 e Hprobe Hhash. unfold User.register, bind.
    rewrite (query_answers _ _ w [] d1 Hprobe). rewrite Hhash. reflexivity.
  - intros stmt. unfold User.register, bind. rewrite query_sends. simpl.
    fold probe.
    destruct (fst (exec probe (store w))) as [detail|[|row rows]]; simpl.
    + unfold push. rewrite in_app_iff. simpl. intuition.
    + destruct (User.hash (Js.get data "password") factor)
        as [e|hashed] eqn:Hhash; simpl.
      * unfold push. rewrite in_app_iff. simpl. intuition.
      * rewrite query_sends. simpl. fold (insert hashed).
        intro Hin.
        assert (Hcases : In stmt (push (push (issued w) probe) (insert hashed))).
        { destruct (fst (exec (insert hashed)
                           (snd (exec probe (store w))))); exact Hin. }
        unfold push in Hcases. rewrite !in_app_iff in Hcases. simpl in Hcases.
        destruct Hcases as [[Hold|[Hp|[]]]|[Hi|[]]]; eauto.
    + unfold push. rewrite in_app_iff. simpl. intuition.
Qed.

Lemma register_binds_the_hash_witness :
  exec {| text := User.register_probe; params := [Js.get bob "username"] |}
       (store (start ([inr []; inr [bob_row]] : Scripted.script)))
  = (inr [], [inr [bob_row]])
  /\ User.hash (Js.get bob "password") 12%Z
     = inr (Scripted.digest (VStr "hunter2"))
  /\ issued (snd (User.register 12%Z bob
                    (start ([inr []; inr [bob_row]] : Scripted.script))))
     = [{| text := User.register_probe; params := [VStr "bob"] |};
        {| text := User.register_insert;
           params := [VStr "bob"; Scripted.digest (VStr "hunter2");
                      VStr "Bob"; VStr "Roe"; VStr "bob@example.com";
                      VBool false] |}].
Proof.
  split; [reflexivity|]. split; [reflexivity|].
  exact (f_equal (fun run => issued (snd run))
           (proj1 (register_binds_the_hash Scripted.script Scripted.database
                     Scripted.bcrypt 12%Z bob
                     (start [inr []; inr [bob_row]]))
              [inr [bob_row]] (Scripted.digest (VStr "hunter2"))
              eq_refl eq_refl)).
Defined.

Lemma values_after_set (o : obj) (k0 : string) (h : value) :
  NoDup (Object_keys o) ->
  forall (i : nat) (k : string) (v : value),
    nth_error o i = Some (k, v) ->
    nth_error (Object_values (set o k0 h)) i
    = Some (if k =? k0 then h else v).
Proof.
  induction o as [|[k' v'] rest IH]; intros Hnd i k v Hnth.
  - destruct i; discriminate.
  - inversion Hnd as [|? ? Hfresh Hrest]; subst. simpl.
    destruct (String.eqb_spec k' k0) as [->|Hne]; simpl.
    + destruct i as [|j]; simpl in *.
      * injection Hnth as <- <-. now rewrite String.eqb_refl.
      * destruct (String.eqb_spec k k0) as [->|Hk].
        { exfalso. apply Hfresh. change k0 with (fst (k0, v)).
          apply in_map. eapply nth_error_In. exact Hnth. }
        unfold Object_values. rewrite nth_error_map, Hnth. reflexivity.
    + destruct i as [|j]; simpl in *.
      * injection Hnth as <- <-.
        apply String.eqb_neq in Hne. now rewrite Hne.
      * now apply IH.
Qed.

(** X7. [User.update] hashes the password exactly when the payload's
    [password] is truthy.  With a falsy one (absent, or the empty
    string) the payload goes to the builder as it is.  With a truthy
    one, if [bcrypt] rejects, that error is thrown and no statement is
    sent; otherwise one statement is sent whose bound values are the
    payload's values in order, the hash standing where the password
    stood, followed by the username. *)
Theorem update_binds_the_hash :
  forall (D : Type) (db : Database D) (crypt : User.Bcrypt) (factor : Z)
         (username : value) (data : obj) (w : world D),
    (truthy (Js.get data "password") = false ->
     User.rehash factor data w = (inr data, w))
    /\ (forall e : error,
        truthy (Js.get data "password") = true ->
        User.hash (Js.get data "password") factor = inl e ->
        User.update factor username data w = (inl e, w))
    /\ (forall hashed : value,
        truthy (Js.get data "password") = true ->
        User.hash (Js.get data "password") factor = inr hashed ->
        NoDup (Object_keys data) ->
        exists stmt : statement,
          issued (snd (User.update factor username data w))
          = (issued w ++ [stmt])%list
          /\ length (params stmt) = length data + 1
          /\ nth_error (params stmt) (length data) = Some username
          /\ forall (i : nat) (k : string) (v : value),
              nth_error data i = Some (k, v) ->
              nth_error (params stmt) i
              = Some (if k =? "password" then hashed else v)).
Proof.
  intros D db crypt factor username data w. split; [|split].
  - intro Hfalsy. unfold User.rehash. now rewrite Hfalsy.
  - intros e Htruthy Hhash. unfold User.update, User.rehash, bind.
    rewrite Htruthy, Hhash. reflexivity.
  - intros hashed Htruthy Hhash Hnd.
    assert (Hrehash : User.rehash factor data w
                      = (inr (set data "password" hashed), w)).
    { unfold User.rehash, bind. rewrite Htruthy, Hhash. reflexivity. }
    assert (Hne : data <> []).
    { intros ->. discriminate Htruthy. }
    assert (Hlen : length (Object_values (set data "password" hashed))
                   = length data).
    { unfold Object_values. rewrite length_map.
      rewrite <- (length_map fst (set data "password" hashed)).
      rewrite <- (length_map fst data).
      change (length (Object_keys (set data "password" hashed))
              = length (Object_keys data)).
      rewrite keys_set_present; [reflexivity|].
      now apply truthy_get_has. }
    eexists. split; [exact (User_update_issued factor username data _ w w
                              Hrehash Hne)|].
    cbn [params]. split; [now rewrite length_push, Hlen|].
    split; [rewrite <- Hlen; apply nth_error_push|].
    intros i k v Hnth. unfold push.
    rewrite nth_error_app1.
    + now apply values_after_set.
    + rewrite Hlen. apply nth_error_Some. now rewrite Hnth.
Qed.

Lemma update_binds_the_hash_witness :
  truthy (Js.get new_password "password") = true
  /\ User.hash (Js.get new_password "password") 12%Z
     = inr (Scripted.digest (VStr "correct horse"))
  /\ NoDup (Object_keys new_password)
  /\ truthy (Js.get blank_password "password") = false
  /\ User.rehash 12%Z blank_password (start ([] : Scripted.script))
     = (inr blank_password, start [])
  /\ exists stmt : statement,
      issued (snd (User.update 12%Z (VStr "bob") new_password
                     (start ([inr [bob_row]] : Scripted.script))))
      = [stmt]
      /\ nth_error (params stmt) 1
         = Some (Scripted.digest (VStr "correct horse")).
Proof.
  assert (Hnd : NoDup (Object_keys new_password)).
  { simpl. repeat constructor; simpl; intuition discriminate. }
  split; [reflexivity|]. split; [reflexivity|]. split; [exact Hnd|].
  split; [reflexivity|].
  split.
  { apply (proj1 (update_binds_the_hash Scripted.script Scripted.database
                    Scripted.bcrypt 12%Z (VStr "bob") blank_password
                    (start []))).
    reflexivity. }
  destruct (proj2 (proj2 (update_binds_the_hash Scripted.script
                            Scripted.database Scripted.bcrypt 12%Z
                            (VStr "bob") new_password
                            (start [inr [bob_row]])))
              (Scripted.digest (VStr "correct horse")) eq_refl eq_refl Hnd)
    as [stmt [Hissued [_ [_ Hbound]]]].
  exists stmt. split; [exact Hissued|].
  exact (Hbound 1 "password" (VStr "correct horse") eq_refl).
Defined.

(* ================================================================== *)
(** ** Further properties: creation *)
(* ================================================================== *)

(** X8. [Company.create] throws an error of the BadInput category
    exactly when the probe answers with a row.  When the probe answers
    with none it sends one [INSERT] bound to the payload's [handle],
    [name], [description], [numEmployees] and [logoUrl], in that order,
    and returns the first row the store gives back; a rejection of the
    [INSERT] is thrown as the driver's error. *)
Theorem Company_create_outcomes :
  forall (D : Type) (db : Database D) (data : obj) (w : world D),
    let probe :=
      {| text := Company.create_probe; params := [Js.get data "handle"] |} in
    let insert :=
      {| text := Company.create_insert;
         params := [Js.get data "handle"; Js.get data "name";
                    Js.get data "description"; Js.get data "numEmployees";
                    Js.get data "logoUrl"] |} in
    ((exists e : error,
         fst (Company.create data w) = inl e /\ classify e = BadInput)
     <-> exists (row : obj) (rows : list obj),
         fst (exec probe (store w)) = inr (row :: rows))
    /\ (forall d1 : D,
        exec probe (store w) = (inr [], d1) ->
        Company.create data w =
          (match fst (exec insert d1) with
           | inl detail => inl (DriverError detail)
           | inr rows => inr (first_row rows)
           end,
           {| store := snd (exec insert d1);
              issued := (issued w ++ [probe; insert])%list |})).
Proof.
  intros D db data w probe insert. split.
  - unfold Company.create, bind. rewrite query_sends. simpl. fold probe.
    destruct (fst (exec probe (store w))) as [detail|[|row rows]]; simpl.
    + split; [intros [e [He Hc]]; injection He as <-; discriminate|].
      intros [row [rows Hrow]]. discriminate.
    + rewrite query_sends. simpl. split.
      * intros [e [He Hc]].
        destruct (fst (exec _ _)) in He; [|discriminate].
        injection He as <-. discriminate.
      * intros [row [rows Hrow]]. discriminate.
    + split; [intros _; now exists row, rows|].
      intros _. eexists. split; reflexivity.
  - intros d1 Hprobe. unfold Company.create, bind.
    rewrite (query_answers _ _ w [] d1 Hprobe).
    rewrite query_sends. simpl. fold insert.
    unfold push. rewrite <- app_assoc. simpl.
    destruct (fst (exec insert d1)); reflexivity.
Qed.

Lemma Company_create_outcomes_witness :
  exec {| text := Company.create_probe; params := [Js.get acme "handle"] |}
       (store (start ([inr []; inr [acme]] : Scripted.script)))
  = (inr [], [inr [acme]])
  /\ Company.create acme (start ([inr []; inr [acme]] : Scripted.script))
     = (inr (VObj acme),
        {| store := [];
           issued :=
             [{| text := Company.create_probe; params := [VStr "acme"] |};
              {| text := Company.create_insert;
                 params := [VStr "acme"; VStr "Acme"; VStr "Anvils";
                            VNum 10; VNull] |}] |}).
Proof.
  split; [reflexivity|].
  exact (proj2 (Company_create_outcomes Scripted.script Scripted.database
                  acme (start [inr []; inr [acme]]))
           [inr [acme]] eq_refl).
Defined.

(** X9. [Job.create] sends one [INSERT] bound to the payload's [title],
    [salary], [equity] and [companyHandle], in that order, with no probe
    before it.  Every error it throws is the driver's: it throws no
    [BadRequestError].  It returns exactly when the store answers, with
    the first row given back. *)
Theorem Job_create_single_insert :
  forall (D : Type) (db : Database D) (data : obj) (w : world D),
    let insert :=
      {| text := Job.create_insert;
         params := [Js.get data "title"; Js.get data "salary";
                    Js.get data "equity"; Js.get data "companyHandle"] |} in
    issued (snd (Job.create data w)) = (issued w ++ [insert])%list
    /\ (forall e : error,
        fst (Job.create data w) = inl e ->
        exists detail : string,
          e = DriverError detail
          /\ fst (exec insert (store w)) = inl detail)
    /\ (forall v : value,
        fst (Job.create data w) = inr v
        <-> exists rows : list obj,
            fst (exec insert (store w)) = inr rows /\ v = first_row rows).
Proof.
  intros D db data w insert.
  unfold Job.create, bind. rewrite query_sends. simpl. fold insert.
  destruct (fst (exec insert (store w))) as [detail|rows]; simpl.
  - split; [reflexivity|]. split.
    + intros e He. injection He as <-. now exists detail.
    + intro v. split; [discriminate|].
      intros [rows [Hrows _]]. discriminate.
  - split; [reflexivity|]. split; [discriminate|].
    intro v. split.
    + intro Hv. injection Hv as <-. now exists rows.
    + intros [rows' [Hrows ->]]. now injection Hrows as <-.
Qed.

Lemma Job_create_single_insert_witness :
  fst (Job.create clerk
         (start ([inl "duplicate key value"] : Scripted.script)))
  = inl (DriverError "duplicate key value")
  /\ exists detail : string,
      DriverError "duplicate key value" = DriverError detail
      /\ fst (exec {| text := Job.create_insert;
                      params := [VStr "Clerk"; VNum 40000; VStr "0";
                                 VStr "acme"] |}
                (store (start ([inl "duplicate key value"]
                               : Scripted.script))))
         = inl detail.
Proof.
  split; [reflexivity|].
  exact (proj1 (proj2 (Job_create_single_insert Scripted.script
                         Scripted.database clerk
                         (start [inl "duplicate key value"])))
           (DriverError "duplicate key value") eq_refl).
Defined.

(* ================================================================== *)
(** ** Further properties: the list filters *)
(* ================================================================== *)

(** X10. [Company.findAll] throws an error of the BadInput category
    exactly when both bounds are given and the minimum exceeds the
    maximum.  In every other case, equal bounds and a single bound
    included, the filters are built and exactly one statement is sent,
    carrying them. *)
Theorem Company_findAll_rejects_exactly_inverted :
  forall (D : Type) (db : Database D) (c : Company.criteria) (w : world D),
    ((exists e : error,
         fst (Company.findAll c w) = inl e /\ classify e = BadInput)
     <-> exists lo hi : Z,
         Company.minEmployees c = Some lo
         /\ Company.maxEmployees c = Some hi
         /\ (hi < lo)%Z)
    /\ ((forall lo hi : Z,
            Company.minEmployees c = Some lo ->
            Company.maxEmployees c = Some hi ->
            (lo <= hi)%Z) ->
        exists (predicates : list string) (values : list value),
          Company.filters c = inr (predicates, values)
          /\ issued (snd (Company.findAll c w))
             = (issued w
                ++ [{| text := Company.findAll_text predicates;
                       params := values |}])%list).
Proof.
  intros D db c w.
  assert (Hgt : Company.gt (Company.minEmployees c) (Company.maxEmployees c)
                = true
                <-> exists lo hi : Z,
                    Company.minEmployees c = Some lo
                    /\ Company.maxEmployees c = Some hi
                    /\ (hi < lo)%Z).
  { destruct (Company.minEmployees c) as [lo|],
             (Company.maxEmployees c) as [hi|]; simpl; split;
      try discriminate;
      try (intros [lo' [hi' [Hlo [Hhi _]]]]; discriminate).
    - intro Hlt. exists lo, hi. repeat split. now apply Z.ltb_lt.
    - intros [lo' [hi' [Hlo [Hhi Hlt]]]].
      injection Hlo as <-. injection Hhi as <-. now apply Z.ltb_lt. }
  assert (Hrun :
            Company.gt (Company.minEmployees c) (Company.maxEmployees c)
            = false ->
            exists (predicates : list string) (values : list value),
              Company.filters c = inr (predicates, values)
              /\ Company.findAll c w
                 = (match fst (exec {| text := Company.findAll_text predicates;
                                       params := values |} (store w)) with
                    | inl detail => inl (DriverError detail)
                    | inr rows => inr rows
                    end,
                    {| store :=
                         snd (exec {| text := Company.findAll_text predicates;
                                      params := values |} (store w));
                       issued :=
                         (issued w
                          ++ [{| text := Company.findAll_text predicates;
                                 params := values |}])%list |})).
  { intro Hok. unfold Company.findAll, Company.filters. rewrite Hok.
    destruct (Company.push_name c
                (Company.push_maxEmployees c
                   (Company.push_minEmployees c ([], []))))
      as [predicates values] eqn:Hbuilt.
    exists predicates, values. split; [reflexivity|].
    unfold bind, lift, ret. simpl. rewrite query_sends. simpl.
    destruct (fst (exec _ (store w))); reflexivity. }
  split.
  - rewrite <- Hgt.
    destruct (Company.gt (Company.minEmployees c) (Company.maxEmployees c))
      eqn:Hcmp.
    + split; [reflexivity|]. intros _.
      unfold Company.findAll, Company.filters. rewrite Hcmp.
      eexists. split; reflexivity.
    + split; [|discriminate].
      intros [e [He Hc]]. exfalso.
      destruct (Hrun eq_refl) as [predicates [values [_ Hsent]]].
      rewrite Hsent in He. simpl in He.
      destruct (fst (exec _ (store w))) in He; [|discriminate].
      injection He as <-. discriminate.
  - intro Hordered.
    assert (Hok : Company.gt (Company.minEmployees c)
                    (Company.maxEmployees c) = false).
    { destruct (Company.gt (Company.minEmployees c)
                  (Company.maxEmployees c)) eqn:Hcmp; [|reflexivity].
      destruct (proj1 Hgt eq_refl) as [lo [hi [Hlo [Hhi Hlt]]]].
      specialize (Hordered lo hi Hlo Hhi). lia. }
    destruct (Hrun Hok) as [predicates [values [Hbuilt Hsent]]].
    exists predicates, values. split; [exact Hbuilt|].
    now rewrite Hsent.
Qed.

Lemma Company_findAll_rejects_exactly_inverted_witness :
  (forall lo hi : Z,
      Company.minEmployees jones = Some lo ->
      Company.maxEmployees jones = Some hi ->
      (lo <= hi)%Z)
  /\ exists (predicates : list string) (values : list value),
      Company.filters jones = inr (predicates, values)
      /\ issued (snd (Company.findAll jones
                        (start ([inr []] : Scripted.script))))
         = [{| text := Company.findAll_text predicates; params := values |}].
Proof.
  assert (Hordered : forall lo hi : Z,
             Company.minEmployees jones = Some lo ->
             Company.maxEmployees jones = Some hi ->
             (lo <= hi)%Z).
  { intros lo hi Hlo Hhi. injection Hlo as <-. injection Hhi as <-. lia. }
  split; [exact Hordered|].
  exact (proj2 (Company_findAll_rejects_exactly_inverted Scripted.script
                  Scripted.database jones (start [inr []]))
           Hordered).
Defined.

(** X11. When [Company.findAll] accepts the criteria, the bound values
    are the given minimum, the given maximum and the name wrapped in
    [%], in that order, an empty name giving none; there are as many
    predicates as values; and the predicate at 0-based position [i] is
    one of the three column tests followed by the placeholder
    [$(i + 1)], the position of its own value. *)
Theorem Company_filters_numbered :
  forall (c : Company.criteria) (predicates : list string)
         (values : list value),
    Company.filters c = inr (predicates, values) ->
    values
    = ((match Company.minEmployees c with
        | Some n => [VNum n]
        | None => []
        end)
       ++ (match Company.maxEmployees c with
           | Some n => [VNum n]
           | None => []
           end)
       ++ (match Company.name c with
           | Some s =>
               if s =? EmptyString then [] else [VStr ("%" ++ s ++ "%")]
           | None => []
           end))%list
    /\ length predicates = length values
    /\ forall (i : nat) (predicate : string),
        nth_error predicates i = Some predicate ->
        exists test : string,
          In test ["num_employees >= "; "num_employees <= "; "name ILIKE "]
          /\ predicate = test ++ "$" ++ dec (i + 1).
Proof.
  intros [[lo|] [hi|] [s|]] predicates values; unfold Company.filters;
    simpl;
    try (destruct (hi <? lo)%Z; [discriminate|]);
    unfold Company.push_name, Company.push_maxEmployees,
      Company.push_minEmployees; simpl;
    try (destruct (String.eqb_spec s EmptyString) as [->|Hs]; simpl);
    intro Hbuilt; injection Hbuilt as <- <-;
    (split; [reflexivity|]); (split; [reflexivity|]);
    intros i predicate Hnth; unfold push in Hnth; simpl in Hnth;
    repeat (destruct i as [|i]; simpl in Hnth;
            [injection Hnth as <-;
             first [ exists "num_employees >= "; split;
                     [simpl; tauto|reflexivity]
                   | exists "num_employees <= "; split;
                     [simpl; tauto|reflexivity]
                   | exists "name ILIKE "; split;
                     [simpl; tauto|reflexivity] ]|]);
    try (destruct i; discriminate); try discriminate.
Qed.

Lemma Company_filters_numbered_witness :
  Company.filters smith
  = inr (["num_employees >= $1"; "num_employees <= $2"; "name ILIKE $3"],
         [VNum 300; VNum 950; VStr "%smith%"])
  /\ exists test : string,
      In test ["num_employees >= "; "num_employees <= "; "name ILIKE "]
      /\ "name ILIKE $3" = test ++ "$" ++ dec (2 + 1).
Proof.
  split; [reflexivity|].
  destruct (Company_filters_numbered smith
              ["num_employees >= $1"; "num_employees <= $2"; "name ILIKE $3"]
              [VNum 300; VNum 950; VStr "%smith%"] eq_refl)
    as [_ [_ Hnumbered]].
  exact (Hnumbered 2 "name ILIKE $3" eq_refl).
Defined.

Lemma append_cancel_l (a b c : string) : a ++ b = a ++ c -> b = c.
Proof.
  induction a as [|ch a IH]; simpl; intro Heq; [exact Heq|].
  injection Heq as Heq. now apply IH.
Qed.

Lemma Job_predicates_by_shape (c : Job.criteria) :
  let salary :=
    match Job.minSalary c with Some _ => true | None => false end in
  let equity :=
    match Job.hasEquity c with Some true => true | _ => false end in
  let titled :=
    match Job.title c with
    | Some t => negb (t =? EmptyString)
    | None => false
    end in
  fst (Job.filters c)
  = ((if salary then ["salary >= $1"] else [])
     ++ (if equity then ["equity > 0"] else [])
     ++ (if titled
         then [("title ILIKE $"
                ++ dec ((if salary then 1 else 0) + 1))%string]
         else []))%list.
Proof.
  destruct c as [[n|] [[|]|] [t|]]; simpl;
    unfold Job.filters, Job.push_minSalary, Job.push_hasEquity,
      Job.push_title; simpl;
    try (destruct (t =? EmptyString); simpl); reflexivity.
Qed.

Lemma Company_predicates_by_shape (c : Company.criteria)
      (predicates : list string) (values : list value) :
  Company.filters c = inr (predicates, values) ->
  let least :=
    match Company.minEmployees c with Some _ => true | None => false end in
  let most :=
    match Company.maxEmployees c with Some _ => true | None => false end in
  let named :=
    match Company.name c with
    | Some s => negb (s =? EmptyString)
    | None => false
    end in
  predicates
  = ((if least then ["num_employees >= $1"] else [])
     ++ (if most
         then [("num_employees <= $"
                ++ dec ((if least then 1 else 0) + 1))%string]
         else [])
     ++ (if named
         then [("name ILIKE $"
                ++ dec ((if least then 1 else 0)
                        + (if most then 1 else 0) + 1))%string]
         else []))%list.
Proof.
  destruct c as [[lo|] [hi|] [s|]]; unfold Company.filters; simpl;
    try (destruct (hi <? lo)%Z; [discriminate|]);
    unfold Company.push_name, Company.push_maxEmployees,
      Company.push_minEmployees; simpl;
    try (destruct (s =? EmptyString); simpl);
    intro Hbuilt; injection Hbuilt as <- _; reflexivity.
Qed.

Lemma present_alike {A : Type} (a b : option A) :
  (a = None <-> b = None) ->
  match a with Some _ => true | None => false end
  = match b with Some _ => true | None => false end.
Proof.
  destruct a, b; intros [Hab Hba]; try reflexivity.
  - discriminate (Hba eq_refl).
  - discriminate (Hab eq_refl).
Qed.

Lemma nonempty_alike (a b : option string) :
  ((exists t : string, a = Some t /\ t <> EmptyString)
   <-> (exists t : string, b = Some t /\ t <> EmptyString)) ->
  match a with Some t => negb (t =? EmptyString) | None => false end
  = match b with Some t => negb (t =? EmptyString) | None => false end.
Proof.
  assert (Hread : forall o : option string,
             (exists t : string, o = Some t /\ t <> EmptyString)
             <-> match o with
                 | Some t => negb (t =? EmptyString)
                 | None => false
                 end = true).
  { intros [t|]; split.
    - intros [t' [Ht Hne]]. injection Ht as <-.
      apply String.eqb_neq in Hne. now rewrite Hne.
    - intro Hb. exists t. split; [reflexivity|].
      apply String.eqb_neq. now destruct (t =? EmptyString).
    - intros [t' [Ht _]]. discriminate.
    - discriminate. }
  rewrite !Hread.
  destruct (match a with Some t => negb (t =? EmptyString) | None => false end),
           (match b with Some t => negb (t =? EmptyString) | None => false end);
    intros [Hab Hba]; try reflexivity.
  - discriminate (Hab eq_refl).
  - discriminate (Hba eq_refl).
Qed.

Lemma equity_alike (a b : option bool) :
  (a = Some true <-> b = Some true) ->
  match a with Some true => true | _ => false end
  = match b with Some true => true | _ => false end.
Proof.
  destruct a as [[|]|], b as [[|]|]; intros [Hab Hba]; try reflexivity;
    first [discriminate (Hab eq_refl) | discriminate (Hba eq_refl)].
Qed.

(** X12. The text [findAll] sends depends on which filters apply and
    on nothing else.  Two job searches that agree on whether [minSalary]
    is given, whether [hasEquity] is [true] and whether [title] is a
    non-empty string build the same predicates and send the same text,
    whatever the salary and the title are; likewise two accepted company
    searches that agree on which of the two bounds are given and whether
    [name] is a non-empty string. *)
Theorem findAll_text_ignores_values :
  (forall c1 c2 : Job.criteria,
      (Job.minSalary c1 = None <-> Job.minSalary c2 = None) ->
      (Job.hasEquity c1 = Some true <-> Job.hasEquity c2 = Some true) ->
      ((exists t : string, Job.title c1 = Some t /\ t <> EmptyString)
       <-> (exists t : string, Job.title c2 = Some t /\ t <> EmptyString)) ->
      fst (Job.filters c1) = fst (Job.filters c2)
      /\ forall (D : Type) (db : Database D) (w : world D),
          map text (issued (snd (Job.findAll c1 w)))
          = map text (issued (snd (Job.findAll c2 w))))
  /\ (forall (c1 c2 : Company.criteria) (p1 p2 : list string)
             (v1 v2 : list value),
        Company.filters c1 = inr (p1, v1) ->
        Company.filters c2 = inr (p2, v2) ->
        (Company.minEmployees c1 = None <-> Company.minEmployees c2 = None) ->
        (Company.maxEmployees c1 = None <-> Company.maxEmployees c2 = None) ->
        ((exists s : string, Company.name c1 = Some s /\ s <> EmptyString)
         <-> (exists s : string,
                 Company.name c2 = Some s /\ s <> EmptyString)) ->
        p1 = p2
        /\ forall (D : Type) (db : Database D) (w : world D),
            map text (issued (snd (Company.findAll c1 w)))
            = map text (issued (snd (Company.findAll c2 w)))).
Proof.
  split.
  - intros c1 c2 Hsalary Hequity Htitle.
    assert (Hsame : fst (Job.filters c1) = fst (Job.filters c2)).
    { rewrite (Job_predicates_by_shape c1), (Job_predicates_by_shape c2).
      cbv zeta.
      rewrite (present_alike _ _ Hsalary), (equity_alike _ _ Hequity),
        (nonempty_alike _ _ Htitle).
      reflexivity. }
    split; [exact Hsame|].
    intros D db w. unfold Job.findAll.
    destruct (Job.filters c1) as [p1 v1], (Job.filters c2) as [p2 v2].
    simpl in Hsame. subst p2.
    unfold bind. rewrite !query_sends. simpl.
    destruct (fst (exec _ (store w))), (fst (exec _ (store w))); simpl;
      unfold push; rewrite !map_app; reflexivity.
  - intros c1 c2 p1 p2 v1 v2 H1 H2 Hleast Hmost Hnamed.
    assert (Hsame : p1 = p2).
    { rewrite (Company_predicates_by_shape c1 p1 v1 H1),
        (Company_predicates_by_shape c2 p2 v2 H2).
      cbv zeta.
      rewrite (present_alike _ _ Hleast), (present_alike _ _ Hmost),
        (nonempty_alike _ _ Hnamed).
      reflexivity. }
    split; [exact Hsame|].
    intros D db w. unfold Company.findAll. rewrite H1, H2. subst p2.
    unfold bind, lift, ret. simpl. rewrite !query_sends. simpl.
    destruct (fst (exec _ (store w))), (fst (exec _ (store w))); simpl;
      unfold push; rewrite !map_app; reflexivity.
Qed.

Lemma findAll_text_ignores_values_witness :
  (Job.minSalary engineers = None <-> Job.minSalary astronomers = None)
  /\ (Job.hasEquity engineers = Some true
      <-> Job.hasEquity astronomers = Some true)
  /\ ((exists t : string, Job.title engineers = Some t /\ t <> EmptyString)
      <-> (exists t : string,
              Job.title astronomers = Some t /\ t <> EmptyString))
  /\ fst (Job.filters engineers) = fst (Job.filters astronomers)
  /\ snd (Job.filters engineers) <> snd (Job.filters astronomers).
Proof.
  assert (Hsalary : Job.minSalary engineers = None
                    <-> Job.minSalary astronomers = None).
  { split; discriminate. }
  assert (Hequity : Job.hasEquity engineers = Some true
                    <-> Job.hasEquity astronomers = Some true).
  { split; reflexivity. }
  assert (Htitle : (exists t : string,
                       Job.title engineers = Some t /\ t <> EmptyString)
                   <-> (exists t : string,
                           Job.title astronomers = Some t
                           /\ t <> EmptyString)).
  { split; intros _; eexists; (split; [reflexivity|discriminate]). }
  split; [exact Hsalary|]. split; [exact Hequity|]. split; [exact Htitle|].
  split.
  - exact (proj1 (proj1 findAll_text_ignores_values engineers astronomers
                    Hsalary Hequity Htitle)).
  - discriminate.
Defined.

Lemma Job_findAll_sends (D : Type) (db : Database D) (c : Job.criteria)
      (w : world D) :
  issued (snd (Job.findAll c w))
  = (issued w
     ++ [{| text := Job.findAll_text (fst (Job.filters c));
            params := snd (Job.filters c) |}])%list.
Proof.
  unfold Job.findAll. destruct (Job.filters c) as [predicates values].
  unfold bind. rewrite query_sends. simpl.
  destruct (fst (exec _ (store w))); reflexivity.
Qed.

Lemma append_assoc (a b c : string) : (a ++ b) ++ c = a ++ (b ++ c).
Proof.
  induction a as [|ch a IH]; simpl; [reflexivity|]. now rewrite IH.
Qed.

Lemma Job_text_filtered (p : string) (ps : list string) :
  Job.findAll_text (p :: ps)
  = Job.findAll_select
    ++ (" WHERE " ++ Array_join " AND " (p :: ps)) ++ " ORDER BY id".
Proof.
  change (Job.findAll_text (p :: ps))
    with ((Job.findAll_select ++ " WHERE " ++ Array_join " AND " (p :: ps))
          ++ " ORDER BY id").
  apply append_assoc.
Qed.

Lemma no_longer_list {A : Type} (xs : list A) (x : A) :
  xs <> (xs ++ [x])%list.
Proof.
  intro Heq. apply (f_equal (@length A)) in Heq.
  rewrite length_app in Heq. simpl in Heq. lia.
Qed.

(** X13. [Job.findAll] sends the bare select followed by the sort
    order, with no [WHERE] and no bound value, exactly when no filter
    applies: [minSalary] absent, [hasEquity] not [true], [title] absent
    or empty.  [Company.findAll] does so exactly when both bounds are
    absent and [name] is absent or empty. *)
Theorem findAll_where_only_with_filter :
  forall (D : Type) (db : Database D) (w : world D),
    (forall c : Job.criteria,
        (Job.minSalary c = None
         /\ Job.hasEquity c <> Some true
         /\ (forall t : string, Job.title c = Some t -> t = EmptyString))
        <-> issued (snd (Job.findAll c w))
            = (issued w
               ++ [{| text := Job.findAll_select ++ " ORDER BY id";
                      params := [] |}])%list)
    /\ (forall c : Company.criteria,
        (Company.minEmployees c = None
         /\ Company.maxEmployees c = None
         /\ (forall s : string, Company.name c = Some s -> s = EmptyString))
        <-> issued (snd (Company.findAll c w))
            = (issued w
               ++ [{| text := Company.findAll_select ++ " ORDER BY name";
                      params := [] |}])%list).
Proof.
  intros D db w. split.
  - intro c. rewrite Job_findAll_sends. split.
    + intros [Hsalary [Hequity Htitle]].
      destruct c as [salary equity title]. simpl in *. subst salary.
      assert (Hnone : Job.filters
                        {| Job.minSalary := None; Job.hasEquity := equity;
                           Job.title := title |} = ([], [])).
      { unfold Job.filters, Job.push_minSalary, Job.push_hasEquity,
          Job.push_title. simpl.
        destruct equity as [[|]|]; try congruence;
          destruct title as [t|]; try reflexivity;
          rewrite (Htitle t eq_refl); reflexivity. }
      rewrite Hnone. reflexivity.
    + intro Hsent. apply app_inv_head in Hsent.
      injection Hsent as Htext Hvalues.
      destruct c as [[n|] [[|]|] [t|]];
        unfold Job.filters, Job.push_minSalary, Job.push_hasEquity,
          Job.push_title in Hvalues; simpl in Hvalues;
        try (destruct (String.eqb_spec t EmptyString) as [->|Hne];
             simpl in Hvalues);
        try discriminate Hvalues;
        first
          [ solve [simpl; repeat split; intros; congruence]
          | exfalso;
            match type of Htext with
            | Job.findAll_text ?p = _ =>
                change (Job.findAll_text ["equity > 0"]
                        = Job.findAll_select ++ " ORDER BY id") in Htext
            end;
            rewrite Job_text_filtered in Htext;
            apply append_cancel_l in Htext; discriminate Htext ].
  - intro c. split.
    + intros [Hleast [Hmost Hnamed]].
      destruct c as [least most named]. simpl in *. subst least most.
      assert (Hnone : Company.filters
                        {| Company.minEmployees := None;
                           Company.maxEmployees := None;
                           Company.name := named |} = inr ([], [])).
      { unfold Company.filters, Company.push_name, Company.push_maxEmployees,
          Company.push_minEmployees. simpl.
        destruct named as [s|]; try reflexivity.
        rewrite (Hnamed s eq_refl). reflexivity. }
      unfold Company.findAll. rewrite Hnone.
      unfold bind, lift, ret. simpl. rewrite query_sends. simpl.
      destruct (fst (exec _ (store w))); reflexivity.
    + intro Hsent. unfold Company.findAll in Hsent.
      destruct (Company.filters c) as [e|[predicates values]] eqn:Hbuilt.
      * simpl in Hsent. now apply no_longer_list in Hsent.
      * unfold bind, lift, ret in Hsent. simpl in Hsent.
        rewrite query_sends in Hsent. simpl in Hsent.
        assert (Hvalues : values = []).
        { destruct (fst (exec _ (store w))) in Hsent; simpl in Hsent;
            unfold push in Hsent; apply app_inv_head in Hsent;
            now injection Hsent as _ Hvalues. }
        subst values. clear Hsent.
        destruct c as [[lo|] [hi|] [s|]]; unfold Company.filters in Hbuilt;
          simpl in Hbuilt;
          try (destruct (hi <? lo)%Z; [discriminate|]);
          unfold Company.push_name, Company.push_maxEmployees,
            Company.push_minEmployees in Hbuilt; simpl in Hbuilt;
          try (destruct (String.eqb_spec s EmptyString) as [->|Hne];
               simpl in Hbuilt);
          try discriminate; simpl; repeat split; congruence.
Qed.

Lemma findAll_where_only_with_filter_witness :
  (Company.minEmployees nameless = None
   /\ Company.maxEmployees nameless = None
   /\ (forall s : string, Company.name nameless = Some s -> s = EmptyString))
  /\ issued (snd (Company.findAll nameless
                    (start ([inr []] : Scripted.script))))
     = [{| text := Company.findAll_select ++ " ORDER BY name";
           params := [] |}].
Proof.
  assert (Hnone : Company.minEmployees nameless = None
                  /\ Company.maxEmployees nameless = None
                  /\ (forall s : string,
                         Company.name nameless = Some s -> s = EmptyString)).
  { split; [reflexivity|]. split; [reflexivity|].
    intros s Hs. now injection Hs as <-. }
  split; [exact Hnone|].
  exact (proj1 (proj2 (findAll_where_only_with_filter Scripted.script
                         Scripted.database (start [inr []]))
                  nameless)
           Hnone).
Defined.

(* ================================================================== *)
(** ** Further properties: the statement builder *)
(* ================================================================== *)

Lemma map_from_agree {A B : Type} (f g : A -> nat -> B) (xs : list A) :
  (forall x : A, In x xs -> forall i : nat, f x i = g x i) ->
  forall idx : nat, map_from f idx xs = map_from g idx xs.
Proof.
  induction xs as [|x rest IH]; intros Hagree idx; simpl; [reflexivity|].
  rewrite (Hagree x (or_introl eq_refl) idx). f_equal.
  apply IH. intros y Hy. apply Hagree. now right.
Qed.

(** X14. [sqlForPartialUpdate] consults the table for the payload's
    fields only: two tables that give the same answer for every field of
    the payload give the same result, so an entry for a field the
    payload does not carry changes nothing. *)
Theorem sqlForPartialUpdate_reads_payload_fields_only :
  forall (dataToUpdate : obj) (jsToSql jsToSql' : Sql.table),
    (forall colName : string,
        In colName (Object_keys dataToUpdate) ->
        Sql.lookup jsToSql colName = Sql.lookup jsToSql' colName) ->
    Sql.sqlForPartialUpdate dataToUpdate jsToSql
    = Sql.sqlForPartialUpdate dataToUpdate jsToSql'.
Proof.
  intros dataToUpdate jsToSql jsToSql' Hagree.
  destruct dataToUpdate as [|entry rest] eqn:Hdata; [reflexivity|].
  rewrite <- Hdata in *.
  assert (Hne : dataToUpdate <> []) by (rewrite Hdata; discriminate).
  rewrite !(sqlForPartialUpdate_nonempty _ _ Hne).
  do 3 f_equal. unfold Array_map. apply map_from_agree.
  intros colName Hin idx. unfold Sql.assignment, Sql.column.
  now rewrite (Hagree colName Hin).
Qed.

Lemma sqlForPartialUpdate_reads_payload_fields_only_witness :
  (forall colName : string,
      In colName (Object_keys [("f1", VStr "v1")]) ->
      Sql.lookup [("f1", "f1"); ("fF2", "f2")] colName
      = Sql.lookup [("f1", "f1")] colName)
  /\ Sql.sqlForPartialUpdate [("f1", VStr "v1")] [("f1", "f1"); ("fF2", "f2")]
     = Sql.sqlForPartialUpdate [("f1", VStr "v1")] [("f1", "f1")].
Proof.
  assert (Hagree : forall colName : string,
             In colName (Object_keys [("f1", VStr "v1")]) ->
             Sql.lookup [("f1", "f1"); ("fF2", "f2")] colName
             = Sql.lookup [("f1", "f1")] colName).
  { intros colName [<-|[]]. reflexivity. }
  split; [exact Hagree|].
  exact (sqlForPartialUpdate_reads_payload_fields_only
           [("f1", VStr "v1")] [("f1", "f1"); ("fF2", "f2")] [("f1", "f1")]
           Hagree).
Defined.
